(** * redactedhook: the cached, rate-limited request pipeline of [internal/api/requests.go]

    A shallow embedding of [makeRequest], [initiateAPIRequest],
    [fetchResponseData] and [determineAPIBase].  Go functions returning
    [(value, error)] become functions returning a pair whose second
    component is [option error] ([None] is Go's [nil] error); a pointer
    result that may be [nil] is an [option].  The package-level collaborators
    the file calls (rate-limiter registry, credential provider, cache store,
    HTTP transport, JSON decoder, logger) are threaded explicitly: their
    answers come from a record of collaborators, and every interaction is
    recorded in a trace so that calls can be counted. *)

From Stdlib Require Import Ascii.
From stdpp Require Import base strings pretty gmap list.

Local Open Scope string_scope.
Local Open Scope Z_scope.

(** ** Go errors *)

(** [errorString] is what [fmt.Errorf] builds when the format has no [%w]
    (and [errors.New]); [wrapError prefix err] is what it builds for a format
    that ends in [%w]: [prefix] is the formatted text before the verb and
    [err] the wrapped error returned by [Unwrap]. *)
Inductive error : Type :=
| errorString (s : string)
| wrapError (prefix : string) (err : error).

(** The [Error()] method: the text printed by [%v] and spliced by [%w]. *)
Fixpoint error_Error (e : error) : string :=
  match e with
  | errorString s => s
  | wrapError prefix err => prefix +:+ error_Error err
  end.

Global Instance error_eq_dec : EqDecision error.
Proof. solve_decision. Defined.

(** ** Data model *)

(** Modelled from the spec: the declaration of the torrent payload is not in
    [requests.go]; the spec gives it a release name, a user name and a
    numeric identifier. *)
Record TorrentInfo : Type := {
  ReleaseName : string;
  Username : string;
  TorrentID : Z
}.

(** Modelled from the spec: the payload container of the envelope; the
    torrent record is held through a pointer that may be [nil]. *)
Record ResponsePayload : Type := {
  Torrent : option TorrentInfo
}.

(** Modelled from the spec: the envelope decoded from the API response. *)
Record ResponseData : Type := {
  Status : string;
  Error : string;
  Response : ResponsePayload
}.

(** Modelled from the spec: the request context, of which [requests.go]
    reads the [Indexer] field and hands the rest to [getAPIKey]. *)
Record RequestData : Type := {
  Indexer : string;
  Credential : string
}.

Global Instance TorrentInfo_eq_dec : EqDecision TorrentInfo.
Proof. solve_decision. Defined.
Global Instance ResponsePayload_eq_dec : EqDecision ResponsePayload.
Proof. solve_decision. Defined.
Global Instance ResponseData_eq_dec : EqDecision ResponseData.
Proof. solve_decision. Defined.

(** [&ResponseData{}]: every field at its zero value. *)
Definition zeroResponseData : ResponseData :=
  {| Status := ""; Error := ""; Response := {| Torrent := None |} |}.

(** The [target interface{}] argument of [makeRequest]: a pointer whose
    dynamic type is either [*ResponseData] (with the pointee's contents) or
    something else. *)
Inductive Target : Type :=
| PtrResponseData (responseData : ResponseData)
| PtrOther.

(** A [*rate.Limiter], identified by its address. *)
Inductive Limiter : Type :=
| LimiterAt (addr : N).

(** [time.Duration] counts nanoseconds. *)
Definition Second : Z := 1000000000.

(** An [*http.Request]: method, URL, headers and the timeout of the context
    attached to it, if any. *)
Record Request : Type := {
  Method : string;
  URL : string;
  Header : list (string * string);
  Timeout : option Z
}.

(** The body of an HTTP response as [io.ReadAll] sees it: the bytes read and
    the read error, if any. *)
Record Body : Type := {
  bodyBytes : string;
  bodyErr : option error
}.

Record HTTPResponse : Type := {
  StatusCode : Z;
  RespBody : Body
}.

(** ** Observable interactions *)

Inductive Level : Type := DebugLevel | WarnLevel | ErrorLevel.

Inductive Event : Type :=
| EvGetAPIKey (requestData : RequestData)
| EvGetLimiter (indexer : string)
| EvAllow (limiter : Limiter)
| EvDo (req : Request)
| EvLog (level : Level) (err : option error) (msg : string).

(** The history of interactions, most recent first. *)
Definition Trace : Type := list Event.

(** ** Collaborators

    Everything [requests.go] calls but does not define.  A collaborator whose
    answer may change from call to call (limiter, transport, credential
    provider, registry) answers as a function of the history so far; since
    every query extends the history, any sequence of answers can be
    scripted.  The cache store is a state of its own, of a type [Cache] left
    to the store, with a read ([checkCache]) and a write
    ([cacheResponseData]). *)
Record Collaborators (Cache : Type) : Type := {
  (** Modelled from the spec: the cache store, [checkCache(key, indexerScope)
      -> (ResponseData, found)] and [cacheResponseData(key, ResponseData)];
      envelopes go in and out as pointers ([None] for [nil]). *)
  checkCache : string -> string -> Cache -> option ResponseData * bool;
  cacheResponseData : string -> option ResponseData -> Cache -> Cache;
  (** Modelled from the spec: the registry [getLimiter(indexer)], [None] for
      a [nil] limiter. *)
  getLimiter : string -> Trace -> option Limiter;
  (** The [Allow] method of a [rate.Limiter]: a non-blocking yes/no answer. *)
  Allow : Limiter -> Trace -> bool;
  (** Modelled from the spec: the credential provider. *)
  getAPIKey : RequestData -> Trace -> string * option error;
  (** The URL check of [http.NewRequest]: [Some e] when the URL is refused. *)
  NewRequestErr : string -> option error;
  (** [http.DefaultClient.Do]. *)
  Do : Request -> Trace -> HTTPResponse + error;
  (** [json.Unmarshal] into a [*ResponseData] holding the given contents:
      the contents afterwards and the decode error, if any. *)
  Unmarshal : string -> ResponseData -> ResponseData * option error;
  (** [json.Unmarshal] into a pointer of another type. *)
  UnmarshalOther : string -> option error;
  (** [html.UnescapeString]. *)
  UnescapeString : string -> string;
  (** The compiled-in base URLs, declared outside [requests.go]. *)
  APIEndpointBaseRedacted : string;
  APIEndpointBaseOrpheus : string
}.

(** ** The world: cache contents and history *)

Record World (Cache : Type) : Type := mkWorld {
  cache : Cache;
  events : Trace
}.
Arguments mkWorld {Cache} _ _.
Arguments cache {Cache} _.
Arguments events {Cache} _.

Arguments checkCache {Cache} _ _ _ _.
Arguments cacheResponseData {Cache} _ _ _ _.
Arguments getLimiter {Cache} _ _ _.
Arguments Allow {Cache} _ _ _.
Arguments getAPIKey {Cache} _ _ _.
Arguments NewRequestErr {Cache} _ _.
Arguments Do {Cache} _ _ _.
Arguments Unmarshal {Cache} _ _ _.
Arguments UnmarshalOther {Cache} _ _.
Arguments UnescapeString {Cache} _ _.
Arguments APIEndpointBaseRedacted {Cache} _.
Arguments APIEndpointBaseOrpheus {Cache} _.

Section Pipeline.

Context {Cache : Type}.
Variable env : Collaborators Cache.

(** A computation reads and extends the world. *)
Definition M (A : Type) : Type := World Cache -> A * World Cache.

Definition ret {A : Type} (a : A) : M A := fun w => (a, w).

Definition bind {A B : Type} (m : M A) (k : A -> M B) : M B :=
  fun w => let (a, w') := m w in k a w'.

Notation "x <~ m ;; k" := (bind m (fun x => k))
  (at level 100, m at next level, right associativity, only parsing).
Notation "m ;;; k" := (bind m (fun _ => k))
  (at level 100, right associativity, only parsing).

(** Record an interaction. *)
Definition emit (e : Event) : M unit :=
  fun w => (tt, mkWorld (cache w) (e :: events w)).

(** Ask a history-dependent collaborator, recording the query. *)
Definition ask {A : Type} (e : Event) (answer : Trace -> A) : M A :=
  fun w => (answer (events w), mkWorld (cache w) (e :: events w)).

Definition log (level : Level) (err : option error) (msg : string) : M unit :=
  emit (EvLog level err msg).

Definition limiter_Allow (limiter : Limiter) : M bool :=
  ask (EvAllow limiter) (Allow env limiter).

(** [http.NewRequest(method, url, nil)]. *)
Definition http_NewRequest (method url : string) : Request + error :=
  match NewRequestErr env url with
  | Some err => inr err
  | None => inl {| Method := method; URL := url; Header := []; Timeout := None |}
  end.

(** [req.Header.Set(key, value)]: replaces whatever the key held. *)
Definition Header_Set (key value : string) (req : Request) : Request :=
  {| Method := Method req; URL := URL req;
     Header := (key, value) ::
               filter (fun kv => fst kv ≠ key) (Header req);
     Timeout := Timeout req |}.

(** [req.WithContext(ctx)] for a context made by [context.WithTimeout]. *)
Definition WithTimeout (d : Z) (req : Request) : Request :=
  {| Method := Method req; URL := URL req; Header := Header req;
     Timeout := Some d |}.

Definition http_Do (req : Request) : M (HTTPResponse + error) :=
  ask (EvDo req) (Do env req).

Definition io_ReadAll (b : Body) : string * option error :=
  (bodyBytes b, bodyErr b).

Definition json_Unmarshal (data : string) (target : Target)
  : Target * option error :=
  match target with
  | PtrResponseData responseData =>
      let (responseData', err) := Unmarshal env data responseData in
      (PtrResponseData responseData', err)
  | PtrOther => (PtrOther, UnmarshalOther env data)
  end.

(** [makeRequest]: the contents of [target] after the call and the error. *)
Definition makeRequest (endpoint apiKey : string) (limiter : Limiter)
    (indexer : string) (target : Target) : M (Target * option error) :=
  allowed <~ limiter_Allow limiter ;;
  if negb allowed then
    log WarnLevel None (indexer +:+ ": Too many requests") ;;;
    ret (target, Some (errorString "too many requests"))
  else
    match http_NewRequest "GET" endpoint with
    | inr err =>
        let wrappedErr :=
          wrapError ("error making HTTP request to " +:+ endpoint +:+ ": ") err in
        log ErrorLevel (Some wrappedErr) "fetchAPI error" ;;;
        ret (target, Some wrappedErr)
    | inl req =>
        let req := Header_Set "Authorization" apiKey req in
        let req := WithTimeout (10 * Second) req in
        r <~ http_Do req ;;
        match r with
        | inr err =>
            log ErrorLevel None ("fetchAPI error: " +:+ error_Error err) ;;;
            ret (target, Some err)
        | inl resp =>
            match io_ReadAll (RespBody resp) with
            | (_, Some err) =>
                log ErrorLevel None ("fetchAPI error: " +:+ error_Error err) ;;;
                ret (target, Some err)
            | (respBody, None) =>
                match json_Unmarshal respBody target with
                | (target, Some err) =>
                    log ErrorLevel None ("fetchAPI error: " +:+ error_Error err) ;;;
                    ret (target, Some err)
                | (target, None) =>
                    match target with
                    | PtrOther =>
                        log ErrorLevel None "Invalid target type for JSON unmarshalling" ;;;
                        ret (target, Some (errorString "invalid target type"))
                    | PtrResponseData responseData =>
                        if decide (Status responseData ≠ "success") then
                          log WarnLevel None
                            ("API error from " +:+ indexer +:+ ": " +:+ Error responseData) ;;;
                          ret (target,
                               Some (errorString
                                 ("API error from " +:+ indexer +:+ ": " +:+ Error responseData)))
                        else ret (target, None)
                    end
                end
            end
        end
    end.

(** The registry lookup [getLimiter(indexer)]. *)
Definition registry_getLimiter (indexer : string) : M (option Limiter) :=
  ask (EvGetLimiter indexer) (getLimiter env indexer).

(** The [*ResponseData] that [target] points to; [initiateAPIRequest] keeps
    the pointer it handed to [makeRequest] and reads the pointee back. *)
Definition pointee (target : Target) (fallback : ResponseData) : ResponseData :=
  match target with
  | PtrResponseData responseData => responseData
  | PtrOther => fallback
  end.

(** [fmt.Sprintf("%s?action=%s&id=%d", apiBase, action, id)]. *)
Definition endpointFor (apiBase action : string) (id : Z) : string :=
  apiBase +:+ "?action=" +:+ action +:+ "&id=" +:+ pretty id.

(** [initiateAPIRequest]: the envelope pointer ([None] for [nil]) and the
    error. *)
Definition initiateAPIRequest (id : Z) (action apiKey apiBase indexer : string)
  : M (option ResponseData * option error) :=
  limiter <~ registry_getLimiter indexer ;;
  match limiter with
  | None =>
      ret (None,
           Some (errorString ("could not get rate limiter for indexer: " +:+ indexer)))
  | Some limiter =>
      let endpoint := endpointFor apiBase action id in
      let responseData := zeroResponseData in
      r <~ makeRequest endpoint apiKey limiter indexer (PtrResponseData responseData) ;;
      match r with
      | (_, Some err) =>
          let wrappedErr :=
            wrapError ("initiateAPIRequest failed for endpoint " +:+ endpoint +:+ ": ") err in
          log ErrorLevel (Some wrappedErr) "API request initiation error" ;;;
          ret (None, Some wrappedErr)
      | (target, None) =>
          let responseData := pointee target responseData in
          match decide (action = "torrent"), Torrent (Response responseData) with
          | left _, Some torrent =>
              let releaseName := UnescapeString env (ReleaseName torrent) in
              let uploader := Username torrent in
              log DebugLevel None
                ("[" +:+ indexer +:+ "] Checking release: " +:+ releaseName +:+
                 " - (Uploader: " +:+ uploader +:+ ") (TorrentID: " +:+ pretty id +:+ ")") ;;;
              ret (Some responseData, None)
          | _, _ => ret (Some responseData, None)
          end
      end
  end.

(** [fmt.Sprintf("%sID %d", action, id)]. *)
Definition cacheKeyFor (action : string) (id : Z) : string :=
  action +:+ "ID " +:+ pretty id.

Definition provider_getAPIKey (requestData : RequestData)
  : M (string * option error) :=
  ask (EvGetAPIKey requestData) (getAPIKey env requestData).

Definition store_checkCache (cacheKey indexer : string)
  : M (option ResponseData * bool) :=
  fun w => (checkCache env cacheKey indexer (cache w), w).

Definition store_cacheResponseData (cacheKey : string)
    (responseData : option ResponseData) : M unit :=
  fun w => (tt, mkWorld (cacheResponseData env cacheKey responseData (cache w)) (events w)).

(** [fetchResponseData]. *)
Definition fetchResponseData (requestData : RequestData) (id : Z)
    (action apiBase : string) : M (option ResponseData * option error) :=
  let cacheKey := cacheKeyFor action id in
  c <~ store_checkCache cacheKey (Indexer requestData) ;;
  let (cachedData, found) := c in
  if found then ret (cachedData, None)
  else
    k <~ provider_getAPIKey requestData ;;
    match k with
    | (_, Some err) => ret (None, Some err)
    | (apiKey, None) =>
        r <~ initiateAPIRequest id action apiKey apiBase (Indexer requestData) ;;
        match r with
        | (_, Some err) =>
            let wrappedErr :=
              wrapError ("error fetching " +:+ action +:+ " data for ID " +:+
                         pretty id +:+ ": ") err in
            log ErrorLevel (Some wrappedErr) "Data fetching error" ;;;
            ret (None, Some wrappedErr)
        | (responseData, None) =>
            store_cacheResponseData cacheKey responseData ;;;
            ret (responseData, None)
        end
    end.

(** [determineAPIBase]. *)
Definition determineAPIBase (indexer : string) : string * option error :=
  if decide (indexer = "redacted") then (APIEndpointBaseRedacted env, None)
  else if decide (indexer = "ops") then (APIEndpointBaseOrpheus env, None)
  else ("", Some (errorString "invalid path")).

End Pipeline.

Arguments ret {Cache A} _ _ /.
Arguments bind {Cache A B} _ _ _ /.
Arguments emit {Cache} _ _ /.
Arguments ask {Cache A} _ _ _ /.
Arguments log {Cache} _ _ _ _ /.

(** ** Counting interactions *)

Definition isDo (e : Event) : bool :=
  match e with EvDo _ => true | _ => false end.

Definition isGetAPIKey (e : Event) : bool :=
  match e with EvGetAPIKey _ => true | _ => false end.

Definition isLimiterQuery (e : Event) : bool :=
  match e with EvGetLimiter _ | EvAllow _ => true | _ => false end.

(** The number of HTTP calls handed to the transport so far. *)
Definition liveCalls (t : Trace) : nat := length (List.filter isDo t).

Definition credentialLookups (t : Trace) : nat := length (List.filter isGetAPIKey t).

Definition limiterQueries (t : Trace) : nat := length (List.filter isLimiterQuery t).

(** The request [makeRequest] hands to the transport. *)
Definition sentRequest (endpoint apiKey : string) : Request :=
  {| Method := "GET"; URL := endpoint;
     Header := [("Authorization", apiKey)];
     Timeout := Some (10 * Second) |}.

(** ** The error kinds of the pipeline, as the values the code builds *)

Definition RateLimited : error := errorString "too many requests".

Definition APIError (indexer msg : string) : error :=
  errorString ("API error from " +:+ indexer +:+ ": " +:+ msg).

Definition InvalidIndexer : error := errorString "invalid path".

Definition LimiterUnavailable (indexer : string) : error :=
  errorString ("could not get rate limiter for indexer: " +:+ indexer).

Definition InitiationFailed (endpoint : string) (err : error) : error :=
  wrapError ("initiateAPIRequest failed for endpoint " +:+ endpoint +:+ ": ") err.

Definition FetchFailed (action : string) (id : Z) (err : error) : error :=
  wrapError ("error fetching " +:+ action +:+ " data for ID " +:+ pretty id +:+ ": ") err.

(** The debug line written for a torrent. *)
Definition releaseLine (indexer releaseName uploader : string) (id : Z) : string :=
  "[" +:+ indexer +:+ "] Checking release: " +:+ releaseName +:+
  " - (Uploader: " +:+ uploader +:+ ") (TorrentID: " +:+ pretty id +:+ ")".

(** [e] carries the id/action context that [fetchResponseData] attaches. *)
Definition HasFetchContext (action : string) (id : Z) (e : error) : Prop :=
  exists inner, e = FetchFailed action id inner.

(** ** Situations of a run *)

Section Situations.

Context {Cache : Type}.
Variable env : Collaborators Cache.

(** The world [makeRequest] continues from once the limiter has admitted the
    call and the request has gone to the transport. *)
Definition answeredWorld (endpoint apiKey : string) (limiter : Limiter)
    (w : World Cache) : World Cache :=
  mkWorld (cache w)
          (EvDo (sentRequest endpoint apiKey) :: EvAllow limiter :: events w).

(** The transport was reached and answered [resp]. *)
Definition Answered (endpoint apiKey : string) (limiter : Limiter)
    (w : World Cache) (resp : HTTPResponse) : Prop :=
  Allow env limiter (events w) = true
  /\ NewRequestErr env endpoint = None
  /\ Do env (sentRequest endpoint apiKey) (EvAllow limiter :: events w) = inl resp.

(** The same collaborators behind a transport whose responses carry another
    HTTP status code. *)
Definition withStatusCode (code : HTTPResponse -> Z) : Collaborators Cache :=
  {| checkCache := checkCache env;
     cacheResponseData := cacheResponseData env;
     getLimiter := getLimiter env;
     Allow := Allow env;
     getAPIKey := getAPIKey env;
     NewRequestErr := NewRequestErr env;
     Do := fun req t =>
       match Do env req t with
       | inl resp => inl {| StatusCode := code resp; RespBody := RespBody resp |}
       | inr err => inr err
       end;
     Unmarshal := Unmarshal env;
     UnmarshalOther := UnmarshalOther env;
     UnescapeString := UnescapeString env;
     APIEndpointBaseRedacted := APIEndpointBaseRedacted env;
     APIEndpointBaseOrpheus := APIEndpointBaseOrpheus env |}.

(** The same collaborators with another [html.UnescapeString]. *)
Definition withUnescape (unescape : string -> string) : Collaborators Cache :=
  {| checkCache := checkCache env;
     cacheResponseData := cacheResponseData env;
     getLimiter := getLimiter env;
     Allow := Allow env;
     getAPIKey := getAPIKey env;
     NewRequestErr := NewRequestErr env;
     Do := Do env;
     Unmarshal := Unmarshal env;
     UnmarshalOther := UnmarshalOther env;
     UnescapeString := unescape;
     APIEndpointBaseRedacted := APIEndpointBaseRedacted env;
     APIEndpointBaseOrpheus := APIEndpointBaseOrpheus env |}.

(** On a cache miss from history [t], the credential resolves, a limiter is
    configured and grants a token, and the request can be built: nothing
    stands between the fetch and the transport. *)
Definition admitted (requestData : RequestData) (id : Z)
    (action apiBase : string) (t : Trace) : bool :=
  match getAPIKey env requestData t with
  | (_, Some _) => false
  | (_, None) =>
      let t1 := EvGetAPIKey requestData :: t in
      match getLimiter env (Indexer requestData) t1 with
      | None => false
      | Some limiter =>
          Allow env limiter (EvGetLimiter (Indexer requestData) :: t1)
          && bool_decide (NewRequestErr env (endpointFor apiBase action id) = None)
      end
  end.

(** The indexers [determineAPIBase] knows, with their base URLs. *)
Definition knownIndexers : list (string * string) :=
  [("redacted", APIEndpointBaseRedacted env); ("ops", APIEndpointBaseOrpheus env)].

End Situations.

(** ** Laws a cache store may satisfy *)

(** Modelled from the spec: the cache store is not in [requests.go]; the
    spec has an entry created by the first successful fetch and read by the
    following ones, with no freshness check.  A lookup under a key returns
    what was last stored under it, whoever asks. *)
Definition ReadYourWrites {Cache : Type} (env : Collaborators Cache) : Prop :=
  forall cacheKey indexer responseData c,
    checkCache env cacheKey indexer (cacheResponseData env cacheKey responseData c)
    = (responseData, true).

(** ** A scripted set of collaborators *)

Module Scripted.

(** A stand-in cache store for runs in which the indexer plays no part: a
    map from cache key to envelope pointer, whose read has no use for the
    indexer it is given.  The store of the spec, scoped by indexer, is
    [Scoped.Store]. *)
Definition Store : Type := gmap string (option ResponseData).

Definition lookupStore (cacheKey indexer : string) (c : Store)
  : option ResponseData * bool :=
  match c !! cacheKey with
  | Some cached => (cached, true)
  | None => (None, false)
  end.

Definition insertStore (cacheKey : string) (responseData : option ResponseData)
    (c : Store) : Store :=
  <[cacheKey := responseData]> c.

Definition limiters (indexer : string) : option Limiter :=
  if decide (indexer = "redacted") then Some (LimiterAt 1)
  else if decide (indexer = "ops") then Some (LimiterAt 2)
  else None.

Definition keyOf (requestData : RequestData) : string * option error :=
  if decide (Credential requestData = "") then
    ("", Some (errorString "no API key configured"))
  else (Credential requestData, None).

(** Replace the five entities every HTML escaper emits. *)
Fixpoint unescape (s : string) : string :=
  match s with
  | "" => ""
  | String "&"%char (String "a"%char (String "m"%char (String "p"%char
      (String ";"%char rest)))) => String "&"%char (unescape rest)
  | String "&"%char (String "l"%char (String "t"%char (String ";"%char rest))) =>
      String "<"%char (unescape rest)
  | String "&"%char (String "g"%char (String "t"%char (String ";"%char rest))) =>
      String ">"%char (unescape rest)
  | String "&"%char (String "#"%char (String "3"%char (String "9"%char
      (String ";"%char rest)))) => String "'"%char (unescape rest)
  | String "&"%char (String "#"%char (String "3"%char (String "4"%char
      (String ";"%char rest)))) => String (ascii_of_nat 34) (unescape rest)
  | String a rest => String a (unescape rest)
  end.

Definition fooBar : ResponseData :=
  {| Status := "success"; Error := "";
     Response := {| Torrent := Some {| ReleaseName := "Foo &amp; Bar";
                                       Username := "alice";
                                       TorrentID := 42 |} |} |}.

Definition failure : ResponseData :=
  {| Status := "failure"; Error := "bad id parameter";
     Response := {| Torrent := None |} |}.

(** The decoder: a table from body text to the envelope it decodes to;
    any other body is malformed. *)
Definition bodies : list (string * ResponseData) :=
  [("success body", fooBar); ("failure body", failure)].

Fixpoint decode (table : list (string * ResponseData)) (data : string)
    (target : ResponseData) : ResponseData * option error :=
  match table with
  | [] => (target, Some (errorString "invalid character looking for beginning of value"))
  | (body, responseData) :: table =>
      if decide (data = body) then (responseData, None)
      else decode table data target
  end.

Definition respond (code : Z) (body : string) : HTTPResponse + error :=
  inl {| StatusCode := code; RespBody := {| bodyBytes := body; bodyErr := None |} |}.

(** Collaborators whose limiter and transport follow a script. *)
Definition collaborators (allow : Trace -> bool)
    (transport : Request -> Trace -> HTTPResponse + error)
  : Collaborators Store :=
  {| checkCache := lookupStore;
     cacheResponseData := insertStore;
     getLimiter := fun indexer _ => limiters indexer;
     Allow := fun _ t => allow t;
     getAPIKey := fun requestData _ => keyOf requestData;
     NewRequestErr := fun _ => None;
     Do := transport;
     Unmarshal := decode bodies;
     UnmarshalOther := fun _ => None;
     UnescapeString := unescape;
     APIEndpointBaseRedacted := "https://redacted.ch/ajax.php";
     APIEndpointBaseOrpheus := "https://orpheus.network/ajax.php" |}.

Definition always (t : Trace) : bool := true.
Definition never (t : Trace) : bool := false.

(** A transport that answers every request with the same status and body. *)
Definition constant (code : Z) (body : string) (req : Request) (t : Trace)
  : HTTPResponse + error := respond code body.

Definition red : RequestData := {| Indexer := "redacted"; Credential := "red-key" |}.
Definition ops : RequestData := {| Indexer := "ops"; Credential := "ops-key" |}.
Definition keyless : RequestData := {| Indexer := "redacted"; Credential := "" |}.

Definition start : World Store := mkWorld ∅ [].

Definition base : string := "https://redacted.ch/ajax.php".

(** The API answers every request with the success body. *)
Definition happy : Collaborators Store :=
  collaborators always (constant 200 "success body").

(** The API reports a failure in its envelope. *)
Definition refusing : Collaborators Store :=
  collaborators always (constant 200 "failure body").

(** The API answers 500 with a success-shaped body. *)
Definition confused : Collaborators Store :=
  collaborators always (constant 500 "success body").

(** The API answers 502 with a body that is not JSON. *)
Definition broken : Collaborators Store :=
  collaborators always (constant 502 "<html>Bad Gateway</html>").

(** The limiter has no token to give. *)
Definition throttled : Collaborators Store :=
  collaborators never (constant 200 "success body").

Definition endpoint42 : string := endpointFor base "torrent" 42.

(** The world once the registry has been asked for the limiter of
    "redacted". *)
Definition asked : World Store := mkWorld ∅ [EvGetLimiter "redacted"].

(** The worlds left by a first fetch of torrent 42. *)
Definition afterRed : World Store :=
  snd (fetchResponseData happy red 42 "torrent" base start).

Definition afterRefusal : World Store :=
  snd (fetchResponseData refusing red 42 "torrent" base start).

End Scripted.

(** ** A cache store whose lookup leaves a mark *)

Module Stateful.

Section Fetch.

Context {Cache : Type}.
Variable env : Collaborators Cache.
Variable afterCheck : string -> string -> Cache -> Cache.

Notation "x <~ m ;; k" := (bind m (fun x => k))
  (at level 100, m at next level, right associativity, only parsing).
Notation "m ;;; k" := (bind m (fun _ => k))
  (at level 100, right associativity, only parsing).

(** Modelled from the spec: the cache store is not in [requests.go], and
    [checkCache(key, indexerScope)] is an operation on its state like the
    write is.  The answer is [checkCache]'s; [afterCheck] is the state the
    lookup leaves behind. *)
Definition store_checkCache (cacheKey indexer : string)
  : M (option ResponseData * bool) :=
  fun w => (checkCache env cacheKey indexer (cache w),
            mkWorld (afterCheck cacheKey indexer (cache w)) (events w)).

(** [fetchResponseData] over such a store. *)
Definition fetchResponseData (requestData : RequestData) (id : Z)
    (action apiBase : string) : M (option ResponseData * option error) :=
  let cacheKey := cacheKeyFor action id in
  c <~ store_checkCache cacheKey (Indexer requestData) ;;
  let (cachedData, found) := c in
  if found then ret (cachedData, None)
  else
    k <~ provider_getAPIKey env requestData ;;
    match k with
    | (_, Some err) => ret (None, Some err)
    | (apiKey, None) =>
        r <~ initiateAPIRequest env id action apiKey apiBase (Indexer requestData) ;;
        match r with
        | (_, Some err) =>
            let wrappedErr :=
              wrapError ("error fetching " +:+ action +:+ " data for ID " +:+
                         pretty id +:+ ": ") err in
            log ErrorLevel (Some wrappedErr) "Data fetching error" ;;;
            ret (None, Some wrappedErr)
        | (responseData, None) =>
            store_cacheResponseData env cacheKey responseData ;;;
            ret (responseData, None)
        end
    end.

End Fetch.

End Stateful.


Module Scoped.

(** Modelled from the spec: a cache store whose entries are keyed by the
    cache key and scoped by indexer.  The write, [cacheResponseData(key,
    ResponseData)], is not given the indexer: the store notes the indexer of
    each lookup and files what is written next under that scope. *)
Record Store : Type := {
  asking : string;
  entries : gmap (string * string) (option ResponseData)
}.

Definition check (cacheKey indexer : string) (c : Store)
  : option ResponseData * bool :=
  match entries c !! (indexer, cacheKey) with
  | Some cached => (cached, true)
  | None => (None, false)
  end.

Definition afterCheck (cacheKey indexer : string) (c : Store) : Store :=
  {| asking := indexer; entries := entries c |}.

Definition put (cacheKey : string) (responseData : option ResponseData)
    (c : Store) : Store :=
  {| asking := asking c;
     entries := <[(asking c, cacheKey) := responseData]> (entries c) |}.

Definition collaborators (allow : Trace -> bool)
    (transport : Request -> Trace -> HTTPResponse + error)
  : Collaborators Store :=
  {| checkCache := check;
     cacheResponseData := put;
     getLimiter := fun indexer _ => Scripted.limiters indexer;
     Allow := fun _ t => allow t;
     getAPIKey := fun requestData _ => Scripted.keyOf requestData;
     NewRequestErr := fun _ => None;
     Do := transport;
     Unmarshal := Scripted.decode Scripted.bodies;
     UnmarshalOther := fun _ => None;
     UnescapeString := Scripted.unescape;
     APIEndpointBaseRedacted := "https://redacted.ch/ajax.php";
     APIEndpointBaseOrpheus := "https://orpheus.network/ajax.php" |}.

Definition happy : Collaborators Store :=
  collaborators Scripted.always (Scripted.constant 200 "success body").

Definition start : World Store := mkWorld {| asking := ""; entries := ∅ |} [].


End Scoped.

(** ** Further vocabulary *)

Definition isAllow (e : Event) : bool :=
  match e with EvAllow _ => true | _ => false end.

(** The number of tokens asked of limiters so far. *)
Definition allowQueries (t : Trace) : nat := length (List.filter isAllow t).

(** [errors.Unwrap]. *)
Definition Unwrap (e : error) : option error :=
  match e with
  | errorString _ => None
  | wrapError _ err => Some err
  end.

Fixpoint hasSpace (s : string) : bool :=
  match s with
  | "" => false
  | String c rest => bool_decide (c = " "%char) || hasSpace rest
  end.

(** What follows the last space of [s] (all of [s] when it has none). *)
Fixpoint afterLastSpace (s : string) : string :=
  match s with
  | "" => ""
  | String c rest =>
      if hasSpace rest then afterLastSpace rest
      else if bool_decide (c = " "%char) then rest else s
  end.

(** Every hit of the cache [c] is a non-nil envelope of status "success". *)
Definition ServesSuccess {Cache : Type} (env : Collaborators Cache) (c : Cache) : Prop :=
  forall cacheKey indexer cached,
    checkCache env cacheKey indexer c = (cached, true) ->
    exists responseData,
      cached = Some responseData /\ Status responseData = "success".

(** [fetches env n w w']: [n] calls of [fetchResponseData], with whatever
    arguments, lead from [w] to [w']. *)
Inductive fetches {Cache : Type} (env : Collaborators Cache)
  : nat -> World Cache -> World Cache -> Prop :=
| fetches_none w : fetches env 0 w w
| fetches_more n w w1 requestData id action apiBase :
    fetches env n w w1 ->
    fetches env (S n) w
      (snd (fetchResponseData env requestData id action apiBase w1)).

Module Scenarios.

(** The transport cannot connect. *)
Definition offline : Collaborators Scripted.Store :=
  Scripted.collaborators Scripted.always
    (fun _ _ => inr (errorString "dial tcp: connection refused")).

(** The connection drops while the body is read. *)
Definition truncated : Collaborators Scripted.Store :=
  Scripted.collaborators Scripted.always
    (fun _ _ => inl {| StatusCode := 200;
                       RespBody := {| bodyBytes := "success";
                                      bodyErr := Some (errorString "unexpected EOF") |} |}).

(** [http.NewRequest] refuses every URL. *)
Definition unbuildable : Collaborators Scripted.Store :=
  {| checkCache := Scripted.lookupStore;
     cacheResponseData := Scripted.insertStore;
     getLimiter := fun indexer _ => Scripted.limiters indexer;
     Allow := fun _ _ => true;
     getAPIKey := fun requestData _ => Scripted.keyOf requestData;
     NewRequestErr := fun _ => Some (errorString "net/url: invalid control character in URL");
     Do := Scripted.constant 200 "success body";
     Unmarshal := Scripted.decode Scripted.bodies;
     UnmarshalOther := fun _ => None;
     UnescapeString := Scripted.unescape;
     APIEndpointBaseRedacted := "https://redacted.ch/ajax.php";
     APIEndpointBaseOrpheus := "https://orpheus.network/ajax.php" |}.

(** A request for an indexer the registry has no limiter for. *)
Definition stray : RequestData := {| Indexer := "btn"; Credential := "btn-key" |}.

(** The world once the credential provider has been asked for "redacted". *)
Definition keyedRed : World Scripted.Store := mkWorld ∅ [EvGetAPIKey Scripted.red].

End Scenarios.

(** * Properties *)

Section Executor.

Context {Cache : Type}.
Variable env : Collaborators Cache.

Lemma liveCalls_cons (e : Event) (t : Trace) :
  liveCalls (e :: t) = (if isDo e then S (liveCalls t) else liveCalls t).
Proof. unfold liveCalls. simpl. destruct (isDo e); reflexivity. Qed.

(** [makeRequest] never touches the cache. *)
Lemma makeRequest_cache endpoint apiKey limiter indexer target (w : World Cache) :
  cache (snd (makeRequest env endpoint apiKey limiter indexer target w)) = cache w.
Proof.
  unfold makeRequest, limiter_Allow, http_Do, json_Unmarshal, io_ReadAll. simpl.
  repeat (case_match; simpl; simplify_eq; try reflexivity).
Qed.

(** [makeRequest] only ever adds to the history, and at most one HTTP call. *)
Lemma makeRequest_events endpoint apiKey limiter indexer target (w : World Cache) :
  exists evs,
    events (snd (makeRequest env endpoint apiKey limiter indexer target w))
    = (evs ++ EvAllow limiter :: events w)%list
    /\ (liveCalls evs <= 1)%nat.
Proof.
  unfold makeRequest, limiter_Allow, http_Do, json_Unmarshal, io_ReadAll. simpl.
  repeat (case_match; simpl; simplify_eq);
    first [ exists []; split; [reflexivity | unfold liveCalls; simpl; lia]
          | eexists [_]; split; [reflexivity | unfold liveCalls; simpl; lia]
          | eexists [_; _]; split; [reflexivity | unfold liveCalls; simpl; lia] ].
Qed.

(** The dynamic type of [target] is not changed by the call. *)
Lemma makeRequest_target_other endpoint apiKey limiter indexer (w : World Cache) :
  exists err,
    fst (makeRequest env endpoint apiKey limiter indexer PtrOther w)
    = (PtrOther, Some err).
Proof.
  unfold makeRequest, limiter_Allow, http_Do, json_Unmarshal, io_ReadAll. simpl.
  repeat (case_match; simpl; simplify_eq); eauto.
Qed.

(** A call that returns no error leaves a success envelope behind the
    pointer. *)
Lemma makeRequest_success endpoint apiKey limiter indexer target target'
    (w w' : World Cache) :
  makeRequest env endpoint apiKey limiter indexer target w = ((target', None), w') ->
  exists responseData,
    target' = PtrResponseData responseData /\ Status responseData = "success".
Proof.
  unfold makeRequest, limiter_Allow, http_Do, json_Unmarshal, io_ReadAll. simpl.
  repeat (case_match; simpl; simplify_eq); intros; simplify_eq.
  eexists; split; [reflexivity|]. by apply dec_stable.
Qed.

Lemma makeRequest_answered endpoint apiKey limiter indexer responseData
    (w : World Cache) resp :
  Answered env endpoint apiKey limiter w resp ->
  makeRequest env endpoint apiKey limiter indexer (PtrResponseData responseData) w
  = match bodyErr (RespBody resp) with
    | Some err =>
        ((PtrResponseData responseData, Some err),
         mkWorld (cache w)
           (EvLog ErrorLevel None ("fetchAPI error: " +:+ error_Error err)
            :: events (answeredWorld endpoint apiKey limiter w)))
    | None =>
        match Unmarshal env (bodyBytes (RespBody resp)) responseData with
        | (decoded, Some err) =>
            ((PtrResponseData decoded, Some err),
             mkWorld (cache w)
               (EvLog ErrorLevel None ("fetchAPI error: " +:+ error_Error err)
                :: events (answeredWorld endpoint apiKey limiter w)))
        | (decoded, None) =>
            if decide (Status decoded = "success") then
              ((PtrResponseData decoded, None), answeredWorld endpoint apiKey limiter w)
            else
              ((PtrResponseData decoded,
                Some (errorString
                  ("API error from " +:+ indexer +:+ ": " +:+ Error decoded))),
               mkWorld (cache w)
                 (EvLog WarnLevel None
                    ("API error from " +:+ indexer +:+ ": " +:+ Error decoded)
                  :: events (answeredWorld endpoint apiKey limiter w)))
        end
    end.
Proof.
  intros (Hallow & Hurl & Hdo).
  unfold makeRequest, limiter_Allow, http_Do, json_Unmarshal, io_ReadAll,
    http_NewRequest, answeredWorld. simpl.
  rewrite Hallow, Hurl. simpl.
  change (WithTimeout (10 * Second) (Header_Set "Authorization" apiKey _))
    with (sentRequest endpoint apiKey).
  rewrite Hdo. simpl.
  destruct (bodyErr (RespBody resp)); [reflexivity|].
  destruct (Unmarshal env (bodyBytes (RespBody resp)) responseData) as [decoded [err|]];
    [reflexivity|].
  simpl. repeat case_decide; try reflexivity; contradiction.
Qed.

(** A call that returns no error made exactly one HTTP call. *)
Lemma makeRequest_success_calls endpoint apiKey limiter indexer target target'
    (w w' : World Cache) :
  makeRequest env endpoint apiKey limiter indexer target w = ((target', None), w') ->
  liveCalls (events w') = S (liveCalls (events w)).
Proof.
  unfold makeRequest, limiter_Allow, http_Do, json_Unmarshal, io_ReadAll. simpl.
  repeat (case_match; simpl; simplify_eq); intros; simplify_eq; reflexivity.
Qed.

(** An admitted call whose request can be built makes exactly one HTTP
    call, however it ends. *)
Lemma makeRequest_admitted_calls endpoint apiKey limiter indexer target
    (w : World Cache) :
  Allow env limiter (events w) = true ->
  NewRequestErr env endpoint = None ->
  liveCalls (events (snd (makeRequest env endpoint apiKey limiter indexer target w)))
  = S (liveCalls (events w)).
Proof.
  intros Hallow Hurl.
  unfold makeRequest, limiter_Allow, http_Do, json_Unmarshal, io_ReadAll,
    http_NewRequest. simpl.
  rewrite Hallow, Hurl. simpl.
  repeat (case_match; simpl; simplify_eq); reflexivity.
Qed.

Lemma makeRequest_calls_le endpoint apiKey limiter indexer target (w : World Cache) :
  (liveCalls (events w)
   <= liveCalls (events (snd (makeRequest env endpoint apiKey limiter indexer target w)))
   <= S (liveCalls (events w)))%nat.
Proof.
  destruct (makeRequest_events endpoint apiKey limiter indexer target w)
    as (evs & -> & Hle).
  unfold liveCalls in *. rewrite List.filter_app, length_app. simpl. lia.
Qed.

(** [makeRequest] never asks the credential provider. *)
Lemma makeRequest_lookups endpoint apiKey limiter indexer target (w : World Cache) :
  credentialLookups
    (events (snd (makeRequest env endpoint apiKey limiter indexer target w)))
  = credentialLookups (events w).
Proof.
  unfold makeRequest, limiter_Allow, http_Do, json_Unmarshal, io_ReadAll. simpl.
  repeat (case_match; simpl; simplify_eq); reflexivity.
Qed.

(** C3. Rate-limit admission: when the limiter's [Allow] answers no,
    [makeRequest] returns the "too many requests" error at once, leaves the
    target and the cache alone, and its whole footprint is the single
    non-blocking [Allow] query and one warning: no HTTP call is issued. *)
Theorem makeRequest_rate_limited endpoint apiKey limiter indexer target
    (w : World Cache) :
  Allow env limiter (events w) = false ->
  makeRequest env endpoint apiKey limiter indexer target w
  = ((target, Some RateLimited),
     mkWorld (cache w)
       (EvLog WarnLevel None (indexer +:+ ": Too many requests")
        :: EvAllow limiter :: events w))
  /\ liveCalls (events (snd (makeRequest env endpoint apiKey limiter indexer target w)))
     = liveCalls (events w)
  /\ limiterQueries
       (events (snd (makeRequest env endpoint apiKey limiter indexer target w)))
     = S (limiterQueries (events w)).
Proof.
  intros Hdenied.
  assert (makeRequest env endpoint apiKey limiter indexer target w
          = ((target, Some RateLimited),
             mkWorld (cache w)
               (EvLog WarnLevel None (indexer +:+ ": Too many requests")
                :: EvAllow limiter :: events w))) as Hrun.
  { unfold makeRequest, limiter_Allow. simpl. rewrite Hdenied. reflexivity. }
  split; [exact Hrun|]. rewrite Hrun. split; reflexivity.
Qed.

(** C4. Envelope status validation: once the body has decoded into an
    envelope, a status other than "success" makes [makeRequest] fail with the
    API error built from the indexer label and the envelope's [Error] string,
    spliced in unchanged; with status "success" the decoded envelope is what
    the target holds and no error is returned. *)
Theorem makeRequest_status_validation endpoint apiKey limiter indexer
    responseData decoded (w : World Cache) resp :
  Answered env endpoint apiKey limiter w resp ->
  bodyErr (RespBody resp) = None ->
  Unmarshal env (bodyBytes (RespBody resp)) responseData = (decoded, None) ->
  (Status decoded <> "success" ->
     fst (makeRequest env endpoint apiKey limiter indexer
            (PtrResponseData responseData) w)
     = (PtrResponseData decoded, Some (APIError indexer (Error decoded)))
     /\ error_Error (APIError indexer (Error decoded))
        = "API error from " +:+ indexer +:+ ": " +:+ Error decoded)
  /\ (Status decoded = "success" ->
     makeRequest env endpoint apiKey limiter indexer (PtrResponseData responseData) w
     = ((PtrResponseData decoded, None), answeredWorld endpoint apiKey limiter w)).
Proof.
  intros Hans Hbody Hdec.
  rewrite (makeRequest_answered _ _ _ indexer responseData _ _ Hans).
  rewrite Hbody, Hdec.
  split; intros Hst; case_decide; try contradiction; try reflexivity.
  split; reflexivity.
Qed.

(** C10. The HTTP status code is ignored: [makeRequest] behaves the same
    whatever status codes the transport's responses carry; in particular a
    response of any status whose body decodes to a "success" envelope
    succeeds, and one whose body does not decode fails with the decoder's
    error. *)
Theorem makeRequest_ignores_status_code endpoint apiKey limiter indexer
    responseData (w : World Cache) :
  (forall code target,
     makeRequest (withStatusCode env code) endpoint apiKey limiter indexer target w
     = makeRequest env endpoint apiKey limiter indexer target w)
  /\ (forall resp decoded,
       Answered env endpoint apiKey limiter w resp ->
       bodyErr (RespBody resp) = None ->
       Unmarshal env (bodyBytes (RespBody resp)) responseData = (decoded, None) ->
       Status decoded = "success" ->
       fst (makeRequest env endpoint apiKey limiter indexer
              (PtrResponseData responseData) w)
       = (PtrResponseData decoded, None))
  /\ (forall resp partial err,
       Answered env endpoint apiKey limiter w resp ->
       bodyErr (RespBody resp) = None ->
       Unmarshal env (bodyBytes (RespBody resp)) responseData = (partial, Some err) ->
       snd (fst (makeRequest env endpoint apiKey limiter indexer
                   (PtrResponseData responseData) w))
       = Some err).
Proof.
  split; [|split].
  - intros code target.
    unfold makeRequest, limiter_Allow, http_Do, json_Unmarshal, io_ReadAll,
      http_NewRequest. simpl.
    destruct (Allow env limiter (events w)); [|reflexivity]. simpl.
    destruct (NewRequestErr env endpoint); [reflexivity|]. simpl.
    match goal with
    | |- context [Do env ?req ?t] => destruct (Do env req t) as [resp|err]
    end; reflexivity.
  - intros resp decoded Hans Hbody Hdec Hst.
    rewrite (makeRequest_answered _ _ _ indexer responseData _ _ Hans).
    rewrite Hbody, Hdec. case_decide; [reflexivity | contradiction].
  - intros resp partial err Hans Hbody Hdec.
    rewrite (makeRequest_answered _ _ _ indexer responseData _ _ Hans).
    rewrite Hbody, Hdec. reflexivity.
Qed.

End Executor.

Section Orchestrator.

Context {Cache : Type}.
Variable env : Collaborators Cache.

(** The world after the registry has been asked for a limiter. *)
Local Abbreviation asked indexer w :=
  (mkWorld (cache w) (EvGetLimiter indexer :: events w)).

Lemma initiate_no_limiter id action apiKey apiBase indexer (w : World Cache) :
  getLimiter env indexer (events w) = None ->
  initiateAPIRequest env id action apiKey apiBase indexer w
  = ((None, Some (LimiterUnavailable indexer)), asked indexer w).
Proof.
  intros Hnil. unfold initiateAPIRequest, registry_getLimiter. simpl.
  rewrite Hnil. reflexivity.
Qed.

Lemma initiate_failed id action apiKey apiBase indexer limiter target err
    (w w2 : World Cache) :
  getLimiter env indexer (events w) = Some limiter ->
  makeRequest env (endpointFor apiBase action id) apiKey limiter indexer
    (PtrResponseData zeroResponseData) (asked indexer w)
  = ((target, Some err), w2) ->
  initiateAPIRequest env id action apiKey apiBase indexer w
  = ((None, Some (InitiationFailed (endpointFor apiBase action id) err)),
     mkWorld (cache w2)
       (EvLog ErrorLevel
          (Some (InitiationFailed (endpointFor apiBase action id) err))
          "API request initiation error" :: events w2)).
Proof.
  intros Hlim Hrun. unfold initiateAPIRequest, registry_getLimiter. simpl.
  rewrite Hlim. unfold bind at 1. rewrite Hrun. reflexivity.
Qed.

Lemma initiate_succeeded id action apiKey apiBase indexer limiter responseData
    (w w2 : World Cache) :
  getLimiter env indexer (events w) = Some limiter ->
  makeRequest env (endpointFor apiBase action id) apiKey limiter indexer
    (PtrResponseData zeroResponseData) (asked indexer w)
  = ((PtrResponseData responseData, None), w2) ->
  initiateAPIRequest env id action apiKey apiBase indexer w
  = ((Some responseData, None),
     match decide (action = "torrent"), Torrent (Response responseData) with
     | left _, Some torrent =>
         mkWorld (cache w2)
           (EvLog DebugLevel None
              (releaseLine indexer (UnescapeString env (ReleaseName torrent))
                 (Username torrent) id) :: events w2)
     | _, _ => w2
     end).
Proof.
  intros Hlim Hrun. unfold initiateAPIRequest, registry_getLimiter. simpl.
  rewrite Hlim. unfold bind at 1. rewrite Hrun. simpl.
  destruct (decide (action = "torrent")); [|reflexivity].
  destruct (Torrent (Response responseData)); reflexivity.
Qed.

(** The three ways [initiateAPIRequest] can end. *)
Lemma initiate_cases id action apiKey apiBase indexer (w : World Cache) :
  let endpoint := endpointFor apiBase action id in
  let run := initiateAPIRequest env id action apiKey apiBase indexer w in
  (getLimiter env indexer (events w) = None
   /\ fst run = (None, Some (LimiterUnavailable indexer)))
  \/ (exists limiter target err w2,
        getLimiter env indexer (events w) = Some limiter
        /\ makeRequest env endpoint apiKey limiter indexer
             (PtrResponseData zeroResponseData) (asked indexer w)
           = ((target, Some err), w2)
        /\ fst run = (None, Some (InitiationFailed endpoint err)))
  \/ (exists limiter responseData w2,
        getLimiter env indexer (events w) = Some limiter
        /\ makeRequest env endpoint apiKey limiter indexer
             (PtrResponseData zeroResponseData) (asked indexer w)
           = ((PtrResponseData responseData, None), w2)
        /\ Status responseData = "success"
        /\ fst run = (Some responseData, None)).
Proof.
  intros endpoint run. subst endpoint run.
  destruct (getLimiter env indexer (events w)) as [limiter|] eqn:Hlim.
  - destruct (makeRequest env (endpointFor apiBase action id) apiKey limiter indexer
                (PtrResponseData zeroResponseData) (asked indexer w))
      as [[target [err|]] w2] eqn:Hrun.
    + right; left. exists limiter, target, err, w2.
      split; [reflexivity|]. split; [exact Hrun|].
      by rewrite (initiate_failed _ _ _ _ _ _ _ _ _ _ Hlim Hrun).
    + right; right.
      destruct (makeRequest_success _ _ _ _ _ _ _ _ _ Hrun) as (rd & -> & Hst).
      exists limiter, rd, w2.
      split; [reflexivity|]. split; [exact Hrun|]. split; [exact Hst|].
      by rewrite (initiate_succeeded _ _ _ _ _ _ _ _ _ Hlim Hrun).
  - left. split; [reflexivity|].
    by rewrite (initiate_no_limiter _ _ _ _ _ _ Hlim).
Qed.

(** [initiateAPIRequest] never touches the cache. *)
Lemma initiate_cache id action apiKey apiBase indexer (w : World Cache) :
  cache (snd (initiateAPIRequest env id action apiKey apiBase indexer w)) = cache w.
Proof.
  destruct (getLimiter env indexer (events w)) as [limiter|] eqn:Hlim.
  - pose proof (makeRequest_cache env (endpointFor apiBase action id) apiKey
                  limiter indexer (PtrResponseData zeroResponseData)
                  (asked indexer w)) as Hc.
    destruct (makeRequest env (endpointFor apiBase action id) apiKey limiter indexer
                (PtrResponseData zeroResponseData) (asked indexer w))
      as [[target [err|]] w2] eqn:Hrun; simpl in Hc.
    + by rewrite (initiate_failed _ _ _ _ _ _ _ _ _ _ Hlim Hrun).
    + destruct (makeRequest_success _ _ _ _ _ _ _ _ _ Hrun) as (rd & -> & Hst).
      rewrite (initiate_succeeded _ _ _ _ _ _ _ _ _ Hlim Hrun). simpl.
      repeat case_match; exact Hc.
  - by rewrite (initiate_no_limiter _ _ _ _ _ _ Hlim).
Qed.

(** With a limiter configured, the history after [initiateAPIRequest] is
    that of its [makeRequest] call, plus at most a log line. *)
Lemma initiate_events id action apiKey apiBase indexer limiter (w : World Cache) :
  getLimiter env indexer (events w) = Some limiter ->
  exists logs,
    events (snd (initiateAPIRequest env id action apiKey apiBase indexer w))
    = (logs ++ events (snd (makeRequest env (endpointFor apiBase action id) apiKey
                              limiter indexer (PtrResponseData zeroResponseData)
                              (asked indexer w))))%list
    /\ liveCalls logs = 0%nat.
Proof.
  intros Hlim.
  destruct (makeRequest env (endpointFor apiBase action id) apiKey limiter indexer
              (PtrResponseData zeroResponseData) (asked indexer w))
    as [[target [err|]] w2] eqn:Hrun.
  - rewrite (initiate_failed _ _ _ _ _ _ _ _ _ _ Hlim Hrun). by eexists [_].
  - destruct (makeRequest_success _ _ _ _ _ _ _ _ _ Hrun) as (rd & -> & Hst).
    rewrite (initiate_succeeded _ _ _ _ _ _ _ _ _ Hlim Hrun). simpl.
    repeat case_match; first [by exists [] | by eexists [_]].
Qed.

Lemma initiate_calls_le id action apiKey apiBase indexer (w : World Cache) :
  (liveCalls (events w)
   <= liveCalls (events (snd (initiateAPIRequest env id action apiKey apiBase indexer w)))
   <= S (liveCalls (events w)))%nat.
Proof.
  destruct (getLimiter env indexer (events w)) as [limiter|] eqn:Hlim.
  - destruct (initiate_events id action apiKey apiBase indexer limiter w Hlim)
      as (logs & -> & Hlogs).
    pose proof (makeRequest_calls_le env (endpointFor apiBase action id) apiKey
                  limiter indexer (PtrResponseData zeroResponseData)
                  (asked indexer w)) as Hle.
    unfold liveCalls in *. rewrite List.filter_app, length_app.
    simpl in Hle. lia.
  - rewrite (initiate_no_limiter _ _ _ _ _ _ Hlim). simpl.
    rewrite liveCalls_cons. simpl. lia.
Qed.

(** A successful [initiateAPIRequest] made exactly one HTTP call. *)
Lemma initiate_success_calls id action apiKey apiBase indexer r (w w' : World Cache) :
  initiateAPIRequest env id action apiKey apiBase indexer w = ((r, None), w') ->
  liveCalls (events w') = S (liveCalls (events w)).
Proof.
  intros Hinit.
  destruct (getLimiter env indexer (events w)) as [limiter|] eqn:Hlim.
  - destruct (makeRequest env (endpointFor apiBase action id) apiKey limiter indexer
                (PtrResponseData zeroResponseData) (asked indexer w))
      as [[target [err|]] w2] eqn:Hrun.
    + rewrite (initiate_failed _ _ _ _ _ _ _ _ _ _ Hlim Hrun) in Hinit.
      discriminate.
    + pose proof (makeRequest_success_calls _ _ _ _ _ _ _ _ _ Hrun) as Hcalls.
      destruct (makeRequest_success _ _ _ _ _ _ _ _ _ Hrun) as (rd & -> & Hst).
      rewrite (initiate_succeeded _ _ _ _ _ _ _ _ _ Hlim Hrun) in Hinit.
      simplify_eq. simpl in Hcalls. repeat case_match; exact Hcalls.
  - rewrite (initiate_no_limiter _ _ _ _ _ _ Hlim) in Hinit. discriminate.
Qed.

(** [initiateAPIRequest] never asks the credential provider. *)
Lemma initiate_lookups id action apiKey apiBase indexer (w : World Cache) :
  credentialLookups
    (events (snd (initiateAPIRequest env id action apiKey apiBase indexer w)))
  = credentialLookups (events w).
Proof.
  destruct (getLimiter env indexer (events w)) as [limiter|] eqn:Hlim.
  - pose proof (makeRequest_lookups env (endpointFor apiBase action id) apiKey
                  limiter indexer (PtrResponseData zeroResponseData)
                  (asked indexer w)) as Hl.
    destruct (makeRequest env (endpointFor apiBase action id) apiKey limiter indexer
                (PtrResponseData zeroResponseData) (asked indexer w))
      as [[target [err|]] w2] eqn:Hrun; simpl in Hl.
    + by rewrite (initiate_failed _ _ _ _ _ _ _ _ _ _ Hlim Hrun).
    + destruct (makeRequest_success _ _ _ _ _ _ _ _ _ Hrun) as (rd & -> & Hst).
      rewrite (initiate_succeeded _ _ _ _ _ _ _ _ _ Hlim Hrun). simpl.
      repeat case_match; exact Hl.
  - by rewrite (initiate_no_limiter _ _ _ _ _ _ Hlim).
Qed.

(** With a limiter that admits the call and a request that can be built,
    [initiateAPIRequest] makes exactly one HTTP call. *)
Lemma initiate_admitted_calls id action apiKey apiBase indexer limiter
    (w : World Cache) :
  getLimiter env indexer (events w) = Some limiter ->
  Allow env limiter (EvGetLimiter indexer :: events w) = true ->
  NewRequestErr env (endpointFor apiBase action id) = None ->
  liveCalls (events (snd (initiateAPIRequest env id action apiKey apiBase indexer w)))
  = S (liveCalls (events w)).
Proof.
  intros Hlim Hallow Hurl.
  destruct (initiate_events id action apiKey apiBase indexer limiter w Hlim)
    as (logs & -> & Hlogs).
  pose proof (makeRequest_admitted_calls env (endpointFor apiBase action id) apiKey
                limiter indexer (PtrResponseData zeroResponseData)
                (asked indexer w) Hallow Hurl) as Hcalls.
  unfold liveCalls in *. rewrite List.filter_app, length_app.
  rewrite Hcalls, Hlogs. reflexivity.
Qed.

End Orchestrator.

Section CachedFetch.

Context {Cache : Type}.
Variable env : Collaborators Cache.

(** The world after the credential provider has been asked. *)
Local Abbreviation keyed requestData w :=
  (mkWorld (cache w) (EvGetAPIKey requestData :: events w)).

Lemma fetch_hit requestData id action apiBase cached (w : World Cache) :
  checkCache env (cacheKeyFor action id) (Indexer requestData) (cache w)
  = (cached, true) ->
  fetchResponseData env requestData id action apiBase w = ((cached, None), w).
Proof.
  intros Hhit. unfold fetchResponseData, store_checkCache. simpl.
  rewrite Hhit. reflexivity.
Qed.

Lemma fetch_no_key requestData id action apiBase cached apiKey err (w : World Cache) :
  checkCache env (cacheKeyFor action id) (Indexer requestData) (cache w)
  = (cached, false) ->
  getAPIKey env requestData (events w) = (apiKey, Some err) ->
  fetchResponseData env requestData id action apiBase w
  = ((None, Some err), keyed requestData w).
Proof.
  intros Hmiss Hkey. unfold fetchResponseData, store_checkCache, provider_getAPIKey.
  simpl. rewrite Hmiss. simpl. rewrite Hkey. reflexivity.
Qed.

Lemma fetch_failed requestData id action apiBase cached apiKey r err
    (w w2 : World Cache) :
  checkCache env (cacheKeyFor action id) (Indexer requestData) (cache w)
  = (cached, false) ->
  getAPIKey env requestData (events w) = (apiKey, None) ->
  initiateAPIRequest env id action apiKey apiBase (Indexer requestData)
    (keyed requestData w) = ((r, Some err), w2) ->
  fetchResponseData env requestData id action apiBase w
  = ((None, Some (FetchFailed action id err)),
     mkWorld (cache w2)
       (EvLog ErrorLevel (Some (FetchFailed action id err)) "Data fetching error"
        :: events w2)).
Proof.
  intros Hmiss Hkey Hinit.
  unfold fetchResponseData, store_checkCache, provider_getAPIKey.
  simpl. rewrite Hmiss. simpl. rewrite Hkey. unfold bind at 1.
  rewrite Hinit. reflexivity.
Qed.

Lemma fetch_succeeded requestData id action apiBase cached apiKey r
    (w w2 : World Cache) :
  checkCache env (cacheKeyFor action id) (Indexer requestData) (cache w)
  = (cached, false) ->
  getAPIKey env requestData (events w) = (apiKey, None) ->
  initiateAPIRequest env id action apiKey apiBase (Indexer requestData)
    (keyed requestData w) = ((r, None), w2) ->
  fetchResponseData env requestData id action apiBase w
  = ((r, None),
     mkWorld (cacheResponseData env (cacheKeyFor action id) r (cache w2)) (events w2)).
Proof.
  intros Hmiss Hkey Hinit.
  unfold fetchResponseData, store_checkCache, provider_getAPIKey.
  simpl. rewrite Hmiss. simpl. rewrite Hkey. unfold bind at 1.
  rewrite Hinit. reflexivity.
Qed.

End CachedFetch.

(** Case analysis of one [fetchResponseData] call, in the order of the code:
    hit, credential failure, orchestrator failure, success. *)
Ltac fetch_cases env requestData id action apiBase w :=
  let cached := fresh "cached" in
  let Hcheck := fresh "Hcheck" in
  let apiKey := fresh "apiKey" in
  let kerr := fresh "kerr" in
  let Hkey := fresh "Hkey" in
  let r := fresh "r" in
  let ierr := fresh "ierr" in
  let w2 := fresh "w2" in
  let Hinit := fresh "Hinit" in
  destruct (checkCache env (cacheKeyFor action id) (Indexer requestData) (cache w))
    as [cached [|]] eqn:Hcheck;
  [ rewrite (fetch_hit env requestData id action apiBase cached w Hcheck) in *
  | destruct (getAPIKey env requestData (events w)) as [apiKey [kerr|]] eqn:Hkey;
    [ rewrite (fetch_no_key env requestData id action apiBase cached apiKey kerr w
                 Hcheck Hkey) in *
    | destruct (initiateAPIRequest env id action apiKey apiBase (Indexer requestData)
                  (mkWorld (cache w) (EvGetAPIKey requestData :: events w)))
        as [[r [ierr|]] w2] eqn:Hinit;
      [ rewrite (fetch_failed env requestData id action apiBase cached apiKey r ierr
                   w w2 Hcheck Hkey Hinit) in *
      | rewrite (fetch_succeeded env requestData id action apiBase cached apiKey r
                   w w2 Hcheck Hkey Hinit) in * ] ] ].

Section FetchProperties.

Context {Cache : Type}.
Variable env : Collaborators Cache.

Local Abbreviation keyed requestData w :=
  (mkWorld (cache w) (EvGetAPIKey requestData :: events w)).

(** C1. Idempotence of fetch, for a cache store that returns under a key what
    was stored under it: after a call that succeeded, the same call again
    returns the same envelope and leaves the world as it was, so the history
    gains no HTTP call, no credential lookup and no limiter query; when the
    first call was a miss, it made exactly one HTTP call. *)
Theorem fetch_idempotent requestData id action apiBase r (w w1 : World Cache) :
  ReadYourWrites env ->
  fetchResponseData env requestData id action apiBase w = ((r, None), w1) ->
  let again := fetchResponseData env requestData id action apiBase w1 in
  again = ((r, None), w1)
  /\ liveCalls (events (snd again)) = liveCalls (events w1)
  /\ credentialLookups (events (snd again)) = credentialLookups (events w1)
  /\ limiterQueries (events (snd again)) = limiterQueries (events w1)
  /\ (snd (checkCache env (cacheKeyFor action id) (Indexer requestData) (cache w))
      = false ->
      liveCalls (events w1) = S (liveCalls (events w))).
Proof.
  intros Hryw Hfirst again.
  assert (again = ((r, None), w1)) as Hagain.
  { subst again.
    fetch_cases env requestData id action apiBase w; simplify_eq.
    - by apply (fetch_hit env).
    - apply fetch_hit. simpl. apply Hryw. }
  rewrite Hagain. repeat split.
  intros Hmiss.
  fetch_cases env requestData id action apiBase w; simplify_eq;
    simpl in Hmiss; try discriminate.
  simpl. by rewrite (initiate_success_calls env _ _ _ _ _ _ _ _ Hinit).
Qed.

(** On a miss with nothing between the fetch and the transport, the fetch
    makes exactly one HTTP call. *)
Lemma fetch_admitted_calls requestData id action apiBase (w : World Cache) :
  snd (checkCache env (cacheKeyFor action id) (Indexer requestData) (cache w)) = false ->
  admitted env requestData id action apiBase (events w) = true ->
  liveCalls (events (snd (fetchResponseData env requestData id action apiBase w)))
  = S (liveCalls (events w)).
Proof.
  intros Hmiss Hadm. unfold admitted in Hadm.
  fetch_cases env requestData id action apiBase w; simpl in Hmiss; try discriminate.
  all: destruct (getLimiter env (Indexer requestData)
                   (EvGetAPIKey requestData :: events w)) as [limiter|] eqn:Hlim;
    [|discriminate].
  all: apply andb_true_iff in Hadm as [Hallow Hurl]; apply bool_decide_eq_true in Hurl.
  all: pose proof (initiate_admitted_calls env id action apiKey apiBase
                     (Indexer requestData) limiter (keyed requestData w)
                     Hlim Hallow Hurl) as Hcalls.
  all: rewrite Hinit in Hcalls; simpl in *; rewrite ?liveCalls_cons in *; simpl in *.
  all: exact Hcalls.
Qed.

(** On a miss the credential provider is asked, once. *)
Lemma fetch_miss_lookups requestData id action apiBase (w : World Cache) :
  snd (checkCache env (cacheKeyFor action id) (Indexer requestData) (cache w)) = false ->
  credentialLookups
    (events (snd (fetchResponseData env requestData id action apiBase w)))
  = S (credentialLookups (events w)).
Proof.
  intros Hmiss.
  fetch_cases env requestData id action apiBase w; simpl in Hmiss; try discriminate.
  - reflexivity.
  - pose proof (initiate_lookups env id action apiKey apiBase (Indexer requestData)
                  (keyed requestData w)) as Hl.
    by rewrite Hinit in Hl.
  - pose proof (initiate_lookups env id action apiKey apiBase (Indexer requestData)
                  (keyed requestData w)) as Hl.
    by rewrite Hinit in Hl.
Qed.

(** C2. Failures are not cached: a call that returns an error returns no
    envelope and leaves the cache exactly as it was, with the key still
    missing.  The same call again is therefore not served from the cache but
    goes down the live path afresh: it asks the credential provider again,
    and once the credential resolves and the limiter admits it, it makes a
    new HTTP call. *)
Theorem fetch_error_leaves_cache requestData id action apiBase r err
    (w w' : World Cache) :
  fetchResponseData env requestData id action apiBase w = ((r, Some err), w') ->
  let again := fetchResponseData env requestData id action apiBase w' in
  r = None
  /\ cache w' = cache w
  /\ snd (checkCache env (cacheKeyFor action id) (Indexer requestData) (cache w'))
     = false
  /\ credentialLookups (events (snd again)) = S (credentialLookups (events w'))
  /\ (admitted env requestData id action apiBase (events w') = true ->
      liveCalls (events (snd again)) = S (liveCalls (events w'))).
Proof.
  intros Hfail again. subst again.
  assert (r = None /\ cache w' = cache w
          /\ snd (checkCache env (cacheKeyFor action id) (Indexer requestData)
                    (cache w)) = false) as (Hr & Hcache & Hmiss).
  { fetch_cases env requestData id action apiBase w; simplify_eq; simpl.
    - done.
    - repeat split.
      pose proof (initiate_cache env id action apiKey apiBase (Indexer requestData)
                    (keyed requestData w)) as Hc.
      by rewrite Hinit in Hc. }
  rewrite Hcache. repeat split; [exact Hr | exact Hmiss | |].
  - apply fetch_miss_lookups. by rewrite Hcache.
  - intros Hadm. apply fetch_admitted_calls; [by rewrite Hcache | exact Hadm].
Qed.

(** A [makeRequest] call that returns no error went through every stage:
    admitted, built, answered, read, decoded, and found status "success". *)
Lemma makeRequest_nil_error endpoint apiKey limiter indexer responseData target'
    (w w' : World Cache) :
  makeRequest env endpoint apiKey limiter indexer (PtrResponseData responseData) w
  = ((target', None), w') ->
  exists resp decoded,
    Answered env endpoint apiKey limiter w resp
    /\ bodyErr (RespBody resp) = None
    /\ Unmarshal env (bodyBytes (RespBody resp)) responseData = (decoded, None)
    /\ Status decoded = "success"
    /\ target' = PtrResponseData decoded.
Proof.
  unfold Answered, makeRequest, limiter_Allow, http_Do, json_Unmarshal, io_ReadAll,
    http_NewRequest. simpl.
  destruct (Allow env limiter (events w)) eqn:Hallow; simpl; [|discriminate].
  destruct (NewRequestErr env endpoint) eqn:Hurl; simpl; [discriminate|].
  change (WithTimeout (10 * Second) (Header_Set "Authorization" apiKey _))
    with (sentRequest endpoint apiKey).
  destruct (Do env (sentRequest endpoint apiKey) (EvAllow limiter :: events w))
    as [resp|err] eqn:Hdo; simpl; [|discriminate].
  destruct (bodyErr (RespBody resp)) eqn:Hbody; simpl; [discriminate|].
  destruct (Unmarshal env (bodyBytes (RespBody resp)) responseData)
    as [decoded [err|]] eqn:Hdec; simpl; [discriminate|].
  case_decide as Hst; simpl; [discriminate|].
  intros Heq. simplify_eq. exists resp, decoded.
  repeat split; try done; by apply dec_stable.
Qed.

(** C5, as the code has it.  On a miss, each stage's failure reaches the
    caller, in a fixed form: the credential provider's error is handed on as
    it is, with no id/action context; the orchestrator's missing-limiter
    error comes inside the id/action context; an executor error comes inside
    the orchestrator's endpoint context inside the id/action context.  These
    are the only errors a fetch returns.  None is dropped: a fetch that
    returns no error after a miss had its key resolved, its limiter found
    and its request admitted, built, answered, read and decoded to a
    "success" envelope, which is the one it returns.  Nothing is retried: a
    call makes at most one HTTP call. *)
Theorem fetch_error_context requestData id action apiBase (w : World Cache) :
  let endpoint := endpointFor apiBase action id in
  let indexer := Indexer requestData in
  let run := fetchResponseData env requestData id action apiBase w in
  let missed :=
    snd (checkCache env (cacheKeyFor action id) indexer (cache w)) = false in
  let primed :=
    mkWorld (cache w) (EvGetLimiter indexer :: EvGetAPIKey requestData :: events w) in
  (forall r err, fst run = (r, Some err) ->
     (snd (getAPIKey env requestData (events w)) = Some err)
     \/ (snd (getAPIKey env requestData (events w)) = None
         /\ err = FetchFailed action id (LimiterUnavailable indexer))
     \/ (exists apiKey limiter target inner w1 w2,
           makeRequest env endpoint apiKey limiter indexer
             (PtrResponseData zeroResponseData) w1 = ((target, Some inner), w2)
           /\ err = FetchFailed action id (InitiationFailed endpoint inner)))
  /\ (forall err, missed ->
        snd (getAPIKey env requestData (events w)) = Some err ->
        fst run = (None, Some err))
  /\ (forall apiKey r inner w2, missed ->
        getAPIKey env requestData (events w) = (apiKey, None) ->
        initiateAPIRequest env id action apiKey apiBase indexer
          (keyed requestData w) = ((r, Some inner), w2) ->
        fst run = (None, Some (FetchFailed action id inner)))
  /\ (forall apiKey, missed ->
        getAPIKey env requestData (events w) = (apiKey, None) ->
        getLimiter env indexer (EvGetAPIKey requestData :: events w) = None ->
        fst (initiateAPIRequest env id action apiKey apiBase indexer
               (keyed requestData w))
        = (None, Some (LimiterUnavailable indexer))
        /\ fst run = (None, Some (FetchFailed action id (LimiterUnavailable indexer))))
  /\ (forall apiKey limiter target inner w2, missed ->
        getAPIKey env requestData (events w) = (apiKey, None) ->
        getLimiter env indexer (EvGetAPIKey requestData :: events w) = Some limiter ->
        makeRequest env endpoint apiKey limiter indexer
          (PtrResponseData zeroResponseData) primed = ((target, Some inner), w2) ->
        fst (initiateAPIRequest env id action apiKey apiBase indexer
               (keyed requestData w))
        = (None, Some (InitiationFailed endpoint inner))
        /\ fst run
           = (None, Some (FetchFailed action id (InitiationFailed endpoint inner))))
  /\ (forall r, missed -> fst run = (r, None) ->
        exists apiKey limiter resp decoded,
          getAPIKey env requestData (events w) = (apiKey, None)
          /\ getLimiter env indexer (EvGetAPIKey requestData :: events w)
             = Some limiter
          /\ Answered env endpoint apiKey limiter primed resp
          /\ bodyErr (RespBody resp) = None
          /\ Unmarshal env (bodyBytes (RespBody resp)) zeroResponseData
             = (decoded, None)
          /\ Status decoded = "success"
          /\ r = Some decoded)
  /\ (liveCalls (events (snd run)) <= S (liveCalls (events w)))%nat.
Proof.
  intros endpoint indexer run missed primed. subst endpoint indexer run missed primed.
  split; [|split; [|split; [|split; [|split; [|split]]]]].
  - intros r0 err Hrun.
    fetch_cases env requestData id action apiBase w; simpl in *; simplify_eq.
    + by left.
    + right.
      destruct (initiate_cases env id action apiKey apiBase (Indexer requestData)
                  (keyed requestData w))
        as [(Hnil & Hres) | [(limiter & target & inner & w3 & Hlim & Hmk & Hres)
                            | (limiter & rd & w3 & Hlim & Hmk & Hst & Hres)]];
        rewrite Hinit in Hres; simpl in Hres; simplify_eq.
      * by left.
      * right. exists apiKey, limiter, target, inner. do 2 eexists.
        split; [exact Hmk | reflexivity].
  - intros err Hmiss Hkey.
    fetch_cases env requestData id action apiBase w; simpl in *; simplify_eq; reflexivity.
  - intros apiKey r0 inner w3 Hmiss Hkey Hinit.
    destruct (checkCache env (cacheKeyFor action id) (Indexer requestData) (cache w))
      as [cached found] eqn:Hcheck. simpl in Hmiss. subst found.
    by rewrite (fetch_failed env requestData id action apiBase cached apiKey r0 inner
                  w w3 Hcheck Hkey Hinit).
  - intros apiKey Hmiss Hkey Hnil.
    destruct (checkCache env (cacheKeyFor action id) (Indexer requestData) (cache w))
      as [cached found] eqn:Hcheck. simpl in Hmiss. subst found.
    pose proof (initiate_no_limiter env id action apiKey apiBase (Indexer requestData)
                  (keyed requestData w) Hnil) as Hinit.
    split; [by rewrite Hinit|].
    by rewrite (fetch_failed env requestData id action apiBase cached apiKey _ _
                  w _ Hcheck Hkey Hinit).
  - intros apiKey limiter target inner w3 Hmiss Hkey Hlim Hmk.
    destruct (checkCache env (cacheKeyFor action id) (Indexer requestData) (cache w))
      as [cached found] eqn:Hcheck. simpl in Hmiss. subst found.
    pose proof (initiate_failed env id action apiKey apiBase (Indexer requestData)
                  limiter target inner (keyed requestData w) w3 Hlim Hmk) as Hinit.
    split; [by rewrite Hinit|].
    by rewrite (fetch_failed env requestData id action apiBase cached apiKey _ _
                  w _ Hcheck Hkey Hinit).
  - intros r0 Hmiss Hrun.
    fetch_cases env requestData id action apiBase w; simpl in *; simplify_eq.
    destruct (initiate_cases env id action apiKey apiBase (Indexer requestData)
                (keyed requestData w))
      as [(Hnil & Hres) | [(limiter & target & inner & w3 & Hlim & Hmk & Hres)
                          | (limiter & rd & w3 & Hlim & Hmk & Hst & Hres)]];
      rewrite Hinit in Hres; simpl in Hres; simplify_eq.
    destruct (makeRequest_nil_error _ _ _ _ _ _ _ _ Hmk)
      as (resp & decoded & Hans & Hbody & Hdec & Hst' & Heq).
    simplify_eq. by exists apiKey, limiter, resp, decoded.
  - fetch_cases env requestData id action apiBase w; simpl in *; simplify_eq.
    + lia.
    + rewrite liveCalls_cons. simpl. lia.
    + pose proof (initiate_calls_le env id action apiKey apiBase (Indexer requestData)
                    (keyed requestData w)) as Hle.
      rewrite Hinit in Hle. simpl in Hle. rewrite !liveCalls_cons in *. simpl in *. lia.
    + pose proof (initiate_calls_le env id action apiKey apiBase (Indexer requestData)
                    (keyed requestData w)) as Hle.
      rewrite Hinit in Hle. simpl in Hle. rewrite !liveCalls_cons in *. simpl in *. lia.
Qed.

(** The key separates ids: under one action, two ids share a key only when
    they are equal. *)
Lemma cacheKeyFor_inj_id action (id id' : Z) :
  cacheKeyFor action id = cacheKeyFor action id' -> id = id'.
Proof.
  unfold cacheKeyFor. intros Heq.
  apply (inj pretty). induction action as [|a action IH]; simpl in Heq.
  - by simplify_eq.
  - apply IH. by simplify_eq.
Qed.

(** C9. Success invariant: an [initiateAPIRequest] call that returns no
    error returns a non-nil envelope whose status is "success"; and a
    [fetchResponseData] call either leaves the cache as it was or stores,
    under the key of the call, an envelope whose status is "success". *)
Theorem success_invariant :
  (forall id action apiKey apiBase indexer r (w w' : World Cache),
     initiateAPIRequest env id action apiKey apiBase indexer w = ((r, None), w') ->
     exists responseData, r = Some responseData /\ Status responseData = "success")
  /\ (forall requestData id action apiBase (w : World Cache),
       let w' := snd (fetchResponseData env requestData id action apiBase w) in
       cache w' = cache w
       \/ exists responseData,
            Status responseData = "success"
            /\ cache w' = cacheResponseData env (cacheKeyFor action id)
                            (Some responseData) (cache w)).
Proof.
  assert (forall id action apiKey apiBase indexer r (w w' : World Cache),
            initiateAPIRequest env id action apiKey apiBase indexer w = ((r, None), w') ->
            exists responseData, r = Some responseData /\ Status responseData = "success")
    as Hinitiate.
  { intros id action apiKey apiBase indexer r w w' Hinit.
    destruct (initiate_cases env id action apiKey apiBase indexer w)
      as [(Hnil & Hres) | [(limiter & target & inner & w3 & Hlim & Hmk & Hres)
                          | (limiter & rd & w3 & Hlim & Hmk & Hst & Hres)]];
      rewrite Hinit in Hres; simpl in Hres; simplify_eq.
    by exists rd. }
  split; [exact Hinitiate|].
  intros requestData id action apiBase w w'. subst w'.
  fetch_cases env requestData id action apiBase w; simpl.
  - by left.
  - by left.
  - left. pose proof (initiate_cache env id action apiKey apiBase (Indexer requestData)
                        (keyed requestData w)) as Hc.
    by rewrite Hinit in Hc.
  - right. destruct (Hinitiate _ _ _ _ _ _ _ _ Hinit) as (rd & -> & Hst).
    exists rd. split; [exact Hst|].
    pose proof (initiate_cache env id action apiKey apiBase (Indexer requestData)
                  (keyed requestData w)) as Hc.
    rewrite Hinit in Hc. simpl in Hc. by rewrite Hc.
Qed.

End FetchProperties.

Section DisplayOnly.

Context {Cache : Type}.
Variable env : Collaborators Cache.

Local Abbreviation keyed requestData w :=
  (mkWorld (cache w) (EvGetAPIKey requestData :: events w)).

(** Swapping [html.UnescapeString] for any other function changes neither
    what [initiateAPIRequest] returns nor the cache. *)
Lemma initiate_unescape unescape id action apiKey apiBase indexer (w : World Cache) :
  fst (initiateAPIRequest (withUnescape env unescape) id action apiKey apiBase indexer w)
  = fst (initiateAPIRequest env id action apiKey apiBase indexer w)
  /\ cache (snd (initiateAPIRequest (withUnescape env unescape) id action apiKey
                   apiBase indexer w))
     = cache (snd (initiateAPIRequest env id action apiKey apiBase indexer w)).
Proof.
  split; [|by rewrite !initiate_cache].
  destruct (getLimiter env indexer (events w)) as [limiter|] eqn:Hlim.
  - destruct (makeRequest env (endpointFor apiBase action id) apiKey limiter indexer
                (PtrResponseData zeroResponseData)
                (mkWorld (cache w) (EvGetLimiter indexer :: events w)))
      as [[target [err|]] w2] eqn:Hrun.
    + rewrite (initiate_failed env _ _ _ _ _ _ _ _ _ _ Hlim Hrun).
      by rewrite (initiate_failed (withUnescape env unescape) _ _ _ _ _ _ _ _ _ _
                    Hlim Hrun).
    + destruct (makeRequest_success _ _ _ _ _ _ _ _ _ Hrun) as (rd & -> & Hst).
      rewrite (initiate_succeeded env _ _ _ _ _ _ _ _ _ Hlim Hrun).
      by rewrite (initiate_succeeded (withUnescape env unescape) _ _ _ _ _ _ _ _ _
                    Hlim Hrun).
  - rewrite (initiate_no_limiter env _ _ _ _ _ _ Hlim).
    by rewrite (initiate_no_limiter (withUnescape env unescape) _ _ _ _ _ _ Hlim).
Qed.

(** C6. HTML-unescape is display-only: for a successful torrent request whose
    payload has a torrent record, [initiateAPIRequest] returns the envelope
    exactly as [makeRequest] decoded it, the release name still escaped; the
    unescaped name appears in the debug line of the history and nowhere
    else.  Whatever function does the unescaping, the envelope returned by
    [initiateAPIRequest], the result of [fetchResponseData] and the cache it
    leaves are the same. *)
Theorem unescape_display_only id apiKey apiBase indexer limiter responseData torrent
    (w w2 : World Cache) :
  getLimiter env indexer (events w) = Some limiter ->
  makeRequest env (endpointFor apiBase "torrent" id) apiKey limiter indexer
    (PtrResponseData zeroResponseData)
    (mkWorld (cache w) (EvGetLimiter indexer :: events w))
  = ((PtrResponseData responseData, None), w2) ->
  Torrent (Response responseData) = Some torrent ->
  initiateAPIRequest env id "torrent" apiKey apiBase indexer w
  = ((Some responseData, None),
     mkWorld (cache w2)
       (EvLog DebugLevel None
          (releaseLine indexer (UnescapeString env (ReleaseName torrent))
             (Username torrent) id) :: events w2))
  /\ (forall unescape,
       fst (initiateAPIRequest (withUnescape env unescape) id "torrent" apiKey
              apiBase indexer w)
       = (Some responseData, None))
  /\ (forall unescape requestData action apiBase',
       fst (fetchResponseData (withUnescape env unescape) requestData id action
              apiBase' w)
       = fst (fetchResponseData env requestData id action apiBase' w)
       /\ cache (snd (fetchResponseData (withUnescape env unescape) requestData id
                        action apiBase' w))
          = cache (snd (fetchResponseData env requestData id action apiBase' w))).
Proof.
  intros Hlim Hrun Htorrent.
  assert (initiateAPIRequest env id "torrent" apiKey apiBase indexer w
          = ((Some responseData, None),
             mkWorld (cache w2)
               (EvLog DebugLevel None
                  (releaseLine indexer (UnescapeString env (ReleaseName torrent))
                     (Username torrent) id) :: events w2))) as Hinit.
  { rewrite (initiate_succeeded env _ _ _ _ _ _ _ _ _ Hlim Hrun).
    rewrite Htorrent. by case_decide. }
  split; [exact Hinit|]. split.
  - intros unescape.
    destruct (initiate_unescape unescape id "torrent" apiKey apiBase indexer w)
      as [-> _].
    by rewrite Hinit.
  - intros unescape requestData action apiBase'.
    fetch_cases env requestData id action apiBase' w.
    + by rewrite (fetch_hit (withUnescape env unescape) requestData id action apiBase' cached w Hcheck).
    + by rewrite (fetch_no_key (withUnescape env unescape) requestData id action apiBase' cached apiKey0
                    kerr w Hcheck Hkey).
    + destruct (initiate_unescape unescape id action apiKey0 apiBase'
                  (Indexer requestData) (keyed requestData w)) as [Hfst Hcache].
      rewrite Hinit0 in Hfst, Hcache.
      destruct (initiateAPIRequest (withUnescape env unescape) id action apiKey0 apiBase'
                  (Indexer requestData) (keyed requestData w))
        as [[r' e'] w2'] eqn:Hinit'.
      simpl in Hfst, Hcache. simplify_eq.
      by rewrite (fetch_failed (withUnescape env unescape) requestData id action apiBase' cached apiKey0
                    r ierr w w2' Hcheck Hkey Hinit').
    + destruct (initiate_unescape unescape id action apiKey0 apiBase'
                  (Indexer requestData) (keyed requestData w)) as [Hfst Hcache].
      rewrite Hinit0 in Hfst, Hcache.
      destruct (initiateAPIRequest (withUnescape env unescape) id action apiKey0 apiBase'
                  (Indexer requestData) (keyed requestData w))
        as [[r' e'] w2'] eqn:Hinit'.
      simpl in Hfst, Hcache. simplify_eq.
      rewrite (fetch_succeeded (withUnescape env unescape) requestData id action apiBase' cached apiKey0
                 r w w2' Hcheck Hkey Hinit').
      simpl. by rewrite Hcache.
Qed.

End DisplayOnly.

Section Resolver.

Context {Cache : Type}.
Variable env : Collaborators Cache.

(** C8. Endpoint resolution: each known indexer resolves to its compiled-in
    base URL with no error, every other one to the empty string and the
    "invalid path" error.  [determineAPIBase] is a function of the indexer
    alone: it takes no world and asks no collaborator. *)
Theorem determineAPIBase_resolves (indexer : string) :
  (forall base, (indexer, base) ∈ knownIndexers env ->
     determineAPIBase env indexer = (base, None))
  /\ (indexer ∉ (knownIndexers env).*1 ->
      determineAPIBase env indexer = ("", Some InvalidIndexer)).
Proof.
  unfold determineAPIBase, knownIndexers. split.
  - intros base Hin. rewrite !elem_of_cons, elem_of_nil in Hin.
    destruct Hin as [Heq | [Heq | []]]; simplify_eq; reflexivity.
  - intros Hout. simpl in Hout. rewrite !not_elem_of_cons in Hout.
    destruct Hout as (Hred & Hops & _).
    by rewrite !decide_False.
Qed.

End Resolver.

Section ScopedFetch.

Context {Cache : Type}.
Variable env : Collaborators Cache.
Variable afterCheck : string -> string -> Cache -> Cache.

(** The world a lookup leaves. *)
Local Abbreviation checked requestData id action w :=
  (mkWorld (afterCheck (cacheKeyFor action id) (Indexer requestData) (cache w))
     (events w)).

(** The world in which a fetch that missed asks for its key's limiter. *)
Local Abbreviation keyed requestData id action w :=
  (mkWorld (afterCheck (cacheKeyFor action id) (Indexer requestData) (cache w))
     (EvGetAPIKey requestData :: events w)).

(** With a lookup that leaves the store as it was, this is the
    [fetchResponseData] of the read-only store. *)
Lemma stateful_read_only requestData id action apiBase (w : World Cache) :
  Stateful.fetchResponseData env (fun _ _ c => c) requestData id action apiBase w
  = fetchResponseData env requestData id action apiBase w.
Proof. destruct w as [c t]. reflexivity. Qed.








End ScopedFetch.

(** * Concrete runs *)

Lemma scripted_read_your_writes allow transport :
  ReadYourWrites (Scripted.collaborators allow transport).
Proof.
  intros cacheKey indexer responseData c.
  change (Scripted.lookupStore cacheKey indexer
            (Scripted.insertStore cacheKey responseData c) = (responseData, true)).
  unfold Scripted.lookupStore, Scripted.insertStore, Scripted.Store in *.
  by rewrite lookup_insert_eq.
Qed.

(** The spec's example: torrent 42 fetched twice for "redacted". *)
Lemma fetch_idempotent_witness :
  fetchResponseData Scripted.happy Scripted.red 42 "torrent" Scripted.base
    Scripted.afterRed
  = ((Some Scripted.fooBar, None), Scripted.afterRed)
  /\ liveCalls (events Scripted.afterRed) = 1%nat.
Proof.
  destruct (fetch_idempotent Scripted.happy Scripted.red 42 "torrent" Scripted.base
              (Some Scripted.fooBar) Scripted.start Scripted.afterRed)
    as (Hagain & _ & _ & _ & Hcalls).
  - apply scripted_read_your_writes.
  - vm_compute. reflexivity.
  - split; [exact Hagain|]. apply Hcalls. reflexivity.
Defined.

(** The API reports a failure: nothing is cached and the next call goes to
    the API again. *)
Lemma fetch_error_leaves_cache_witness :
  cache Scripted.afterRefusal = cache Scripted.start
  /\ liveCalls (events (snd (fetchResponseData Scripted.refusing Scripted.red 42
                               "torrent" Scripted.base Scripted.afterRefusal)))
     = 2%nat.
Proof.
  destruct (fetch_error_leaves_cache Scripted.refusing Scripted.red 42 "torrent"
              Scripted.base None
              (FetchFailed "torrent" 42
                 (InitiationFailed Scripted.endpoint42
                    (APIError "redacted" "bad id parameter")))
              Scripted.start Scripted.afterRefusal)
    as (_ & Hcache & _ & _ & Hagain).
  - vm_compute. reflexivity.
  - split; [exact Hcache|]. rewrite Hagain; vm_compute; reflexivity.
Defined.

(** A limiter with no token: one [Allow] query, one warning, no HTTP call. *)
Lemma makeRequest_rate_limited_witness :
  makeRequest Scripted.throttled Scripted.endpoint42 "red-key" (LimiterAt 1)
    "redacted" (PtrResponseData zeroResponseData) Scripted.asked
  = ((PtrResponseData zeroResponseData, Some RateLimited),
     mkWorld (cache Scripted.asked)
       [EvLog WarnLevel None "redacted: Too many requests";
        EvAllow (LimiterAt 1); EvGetLimiter "redacted"]).
Proof.
  apply (makeRequest_rate_limited Scripted.throttled Scripted.endpoint42 "red-key"
           (LimiterAt 1) "redacted" (PtrResponseData zeroResponseData)
           Scripted.asked).
  reflexivity.
Defined.

(** A failure envelope becomes the API error with the envelope's message. *)
Lemma makeRequest_status_validation_witness :
  fst (makeRequest Scripted.refusing Scripted.endpoint42 "red-key" (LimiterAt 1)
         "redacted" (PtrResponseData zeroResponseData) Scripted.asked)
  = (PtrResponseData Scripted.failure,
     Some (errorString "API error from redacted: bad id parameter")).
Proof.
  apply (makeRequest_status_validation Scripted.refusing Scripted.endpoint42
           "red-key" (LimiterAt 1) "redacted" zeroResponseData Scripted.failure
           Scripted.asked
           {| StatusCode := 200;
              RespBody := {| bodyBytes := "failure body"; bodyErr := None |} |}).
  - repeat split.
  - reflexivity.
  - reflexivity.
  - discriminate.
Defined.

(** A 500 with a success-shaped body succeeds; a 502 with a body that is not
    JSON fails with the decoder's error. *)
Lemma makeRequest_ignores_status_code_witness :
  fst (makeRequest Scripted.confused Scripted.endpoint42 "red-key" (LimiterAt 1)
         "redacted" (PtrResponseData zeroResponseData) Scripted.asked)
  = (PtrResponseData Scripted.fooBar, None)
  /\ snd (fst (makeRequest Scripted.broken Scripted.endpoint42 "red-key"
                 (LimiterAt 1) "redacted" (PtrResponseData zeroResponseData)
                 Scripted.asked))
     = Some (errorString "invalid character looking for beginning of value").
Proof.
  split.
  - apply (makeRequest_ignores_status_code Scripted.confused Scripted.endpoint42
             "red-key" (LimiterAt 1) "redacted" zeroResponseData Scripted.asked)
      with (resp := {| StatusCode := 500;
                       RespBody := {| bodyBytes := "success body";
                                      bodyErr := None |} |}).
    + repeat split.
    + reflexivity.
    + reflexivity.
    + reflexivity.
  - apply (makeRequest_ignores_status_code Scripted.broken Scripted.endpoint42
             "red-key" (LimiterAt 1) "redacted" zeroResponseData Scripted.asked)
      with (resp := {| StatusCode := 502;
                       RespBody := {| bodyBytes := "<html>Bad Gateway</html>";
                                      bodyErr := None |} |})
           (partial := zeroResponseData).
    + repeat split.
    + reflexivity.
    + reflexivity.
Defined.

(** C5 as stated fails: with no API key configured, the provider's error
    comes back from [fetchResponseData] as it is; it carries no id/action
    context. *)
Lemma credential_error_lacks_context :
  fst (fetchResponseData Scripted.happy Scripted.keyless 42 "torrent"
         Scripted.base Scripted.start)
  = (None, Some (errorString "no API key configured"))
  /\ ~ HasFetchContext "torrent" 42 (errorString "no API key configured").
Proof.
  split; [reflexivity|]. intros [inner Heq]. discriminate Heq.
Qed.

(** The provider's error surfaces bare; the API's error surfaces inside the
    endpoint context inside the id/action context. *)
Lemma fetch_error_context_witness :
  fst (fetchResponseData Scripted.happy Scripted.keyless 42 "torrent"
         Scripted.base Scripted.start)
  = (None, Some (errorString "no API key configured"))
  /\ fst (fetchResponseData Scripted.refusing Scripted.red 42 "torrent"
            Scripted.base Scripted.start)
     = (None,
        Some (FetchFailed "torrent" 42
                (InitiationFailed Scripted.endpoint42
                   (APIError "redacted" "bad id parameter")))).
Proof.
  split.
  - destruct (fetch_error_context Scripted.happy Scripted.keyless 42 "torrent"
                Scripted.base Scripted.start) as (_ & Hbare & _).
    apply Hbare; reflexivity.
  - destruct (fetch_error_context Scripted.refusing Scripted.red 42 "torrent"
                Scripted.base Scripted.start) as (_ & _ & _ & _ & Hexecutor & _).
    apply (Hexecutor "red-key" (LimiterAt 1) (PtrResponseData Scripted.failure)
             (APIError "redacted" "bad id parameter")
             (snd (makeRequest Scripted.refusing Scripted.endpoint42 "red-key"
                     (LimiterAt 1) "redacted" (PtrResponseData zeroResponseData)
                     (mkWorld ∅ [EvGetLimiter "redacted";
                                 EvGetAPIKey Scripted.red]))));
      vm_compute; reflexivity.
Defined.

(** The spec's example: the envelope keeps "Foo &amp; Bar", the debug line
    shows "Foo & Bar". *)
Lemma unescape_display_only_witness :
  initiateAPIRequest Scripted.happy 42 "torrent" "red-key" Scripted.base
    "redacted" Scripted.start
  = ((Some Scripted.fooBar, None),
     mkWorld ∅
       [EvLog DebugLevel None
          "[redacted] Checking release: Foo & Bar - (Uploader: alice) (TorrentID: 42)";
        EvDo (sentRequest Scripted.endpoint42 "red-key");
        EvAllow (LimiterAt 1); EvGetLimiter "redacted"])
  /\ ReleaseName <$> Torrent (Response Scripted.fooBar) = Some "Foo &amp; Bar".
Proof.
  split; [|reflexivity].
  apply (unescape_display_only Scripted.happy 42 "red-key" Scripted.base "redacted"
           (LimiterAt 1) Scripted.fooBar
           {| ReleaseName := "Foo &amp; Bar"; Username := "alice"; TorrentID := 42 |}
           Scripted.start
           (mkWorld ∅ [EvDo (sentRequest Scripted.endpoint42 "red-key");
                       EvAllow (LimiterAt 1); EvGetLimiter "redacted"])).
  - reflexivity.
  - reflexivity.
  - reflexivity.
Defined.

(** "ops" resolves to its base URL, an unknown indexer to the error. *)
Lemma determineAPIBase_resolves_witness :
  determineAPIBase Scripted.happy "ops" = ("https://orpheus.network/ajax.php", None)
  /\ determineAPIBase Scripted.happy "btn" = ("", Some (errorString "invalid path")).
Proof.
  split.
  - apply (determineAPIBase_resolves Scripted.happy "ops").
    vm_compute. apply list_elem_of_further, list_elem_of_here.
  - apply (determineAPIBase_resolves Scripted.happy "btn").
    vm_compute. intros Hin.
    apply elem_of_cons in Hin as [Heq|Hin]; [discriminate|].
    apply elem_of_cons in Hin as [Heq|Hin]; [discriminate|].
    by apply elem_of_nil in Hin.
Defined.

(** The envelope returned for torrent 42 is non-nil and has status
    "success". *)
Lemma success_invariant_witness :
  exists responseData,
    Some Scripted.fooBar = Some responseData /\ Status responseData = "success".
Proof.
  destruct (success_invariant Scripted.happy) as (Hinitiate & _).
  apply (Hinitiate 42 "torrent" "red-key" Scripted.base "redacted"
           (Some Scripted.fooBar) Scripted.start
           (snd (initiateAPIRequest Scripted.happy 42 "torrent" "red-key"
                   Scripted.base "redacted" Scripted.start))).
  vm_compute. reflexivity.
Defined.

(** * Beyond the claims *)

(** ** The cache key *)

Lemma string_app_nil (s : string) : "" +:+ s = s.
Proof. reflexivity. Qed.

Lemma string_app_cons (c : ascii) (s1 s2 : string) :
  String c s1 +:+ s2 = String c (s1 +:+ s2).
Proof. reflexivity. Qed.

Lemma string_length_app (s1 s2 : string) :
  String.length (s1 +:+ s2) = (String.length s1 + String.length s2)%nat.
Proof.
  induction s1 as [|c s1 IH]; [reflexivity|].
  rewrite string_app_cons. simpl. by rewrite IH.
Qed.

Lemma string_app_cancel_r (s1 s2 s : string) : s1 +:+ s = s2 +:+ s -> s1 = s2.
Proof.
  revert s2. induction s1 as [|c s1 IH]; intros [|c' s2] Heq.
  - reflexivity.
  - apply (f_equal String.length) in Heq.
    rewrite !string_length_app in Heq. simpl in Heq. lia.
  - apply (f_equal String.length) in Heq.
    rewrite !string_length_app in Heq. simpl in Heq. lia.
  - rewrite !string_app_cons in Heq. injection Heq as -> Heq. f_equal. by apply IH.
Qed.

Lemma hasSpace_app (s1 s2 : string) :
  hasSpace (s1 +:+ s2) = hasSpace s1 || hasSpace s2.
Proof.
  induction s1 as [|c s1 IH]; [reflexivity|].
  rewrite string_app_cons. simpl. by rewrite IH, orb_assoc.
Qed.

Lemma afterLastSpace_app (s1 s2 : string) :
  hasSpace s2 = false -> afterLastSpace (s1 +:+ " " +:+ s2) = s2.
Proof.
  intros Hnone. induction s1 as [|c s1 IH].
  - rewrite string_app_nil, string_app_cons, string_app_nil. simpl.
    by rewrite Hnone.
  - rewrite string_app_cons. simpl.
    rewrite hasSpace_app, string_app_cons. simpl. by rewrite orb_true_r.
Qed.

Lemma pretty_N_char_no_space (x : N) : pretty_N_char x <> " "%char.
Proof. unfold pretty_N_char. by repeat case_match. Qed.

Lemma pretty_N_go_no_space (x : N) (s : string) :
  hasSpace s = false -> hasSpace (pretty_N_go x s) = false.
Proof.
  revert s. induction (N.lt_wf_0 x) as [x _ IH]; intros s Hs.
  destruct (decide (x = 0)%N) as [->|Hpos].
  - by rewrite pretty_N_go_0.
  - rewrite pretty_N_go_step by lia. apply IH.
    + apply N.div_lt; lia.
    + simpl. rewrite Hs, orb_false_r.
      apply bool_decide_eq_false, pretty_N_char_no_space.
Qed.

Lemma pretty_N_no_space (x : N) : hasSpace (pretty x) = false.
Proof.
  unfold pretty, pretty_N. case_decide; [reflexivity|].
  by apply pretty_N_go_no_space.
Qed.

(** The decimal rendering of an id has no space in it. *)
Lemma pretty_Z_no_space (id : Z) : hasSpace (pretty id) = false.
Proof.
  destruct id as [|p|p]; unfold pretty, pretty_Z; [reflexivity| |].
  - apply (pretty_N_no_space (Npos p)).
  - change (hasSpace ("-" +:+ pretty (Npos p)) = false).
    rewrite hasSpace_app. simpl. apply (pretty_N_no_space (Npos p)).
Qed.

(** X1. The cache key is unambiguous: two calls share a key only when they
    have the same action and the same id, whatever characters the actions
    contain. *)
Theorem cacheKeyFor_inj action action' (id id' : Z) :
  cacheKeyFor action id = cacheKeyFor action' id' ->
  action = action' /\ id = id'.
Proof.
  unfold cacheKeyFor. intros Heq.
  assert (pretty id = pretty id') as Hid.
  { pose proof (afterLastSpace_app (action +:+ "ID") (pretty id)
                  (pretty_Z_no_space id)) as H1.
    pose proof (afterLastSpace_app (action' +:+ "ID") (pretty id')
                  (pretty_Z_no_space id')) as H2.
    assert (forall a p, (a +:+ "ID") +:+ " " +:+ p = a +:+ "ID " +:+ p) as Hshape.
    { intros a p. induction a as [|c a IHa]; [reflexivity|].
      change (String c ((a +:+ "ID") +:+ " " +:+ p) = String c (a +:+ "ID " +:+ p)).
      by rewrite IHa. }
    rewrite Hshape in H1, H2. rewrite Heq in H1. congruence. }
  split; [|by apply (inj pretty)].
  rewrite Hid in Heq.
  by apply (string_app_cancel_r action action' ("ID " +:+ pretty id')).
Qed.

Lemma cacheKeyFor_inj_witness : "torrent" = "torrent" /\ 42 = 42.
Proof. apply (cacheKeyFor_inj "torrent" "torrent" 42 42). reflexivity. Defined.

(** ** More on the executor *)

Section ExecutorFootprint.

Context {Cache : Type}.
Variable env : Collaborators Cache.

(** Unfold one [makeRequest] call and split on every answer it inspects. *)
Ltac run_makeRequest :=
  unfold makeRequest, limiter_Allow, http_Do, json_Unmarshal, io_ReadAll,
    http_NewRequest; simpl;
  repeat (case_match; simpl; simplify_eq).

(** X2. Whatever the outcome, one [makeRequest] call takes exactly one
    answer from the limiter, asks neither the registry nor the credential
    provider, makes at most one HTTP call and leaves the cache alone. *)
Theorem makeRequest_footprint endpoint apiKey limiter indexer target
    (w : World Cache) :
  let w' := snd (makeRequest env endpoint apiKey limiter indexer target w) in
  allowQueries (events w') = S (allowQueries (events w))
  /\ limiterQueries (events w') = S (limiterQueries (events w))
  /\ credentialLookups (events w') = credentialLookups (events w)
  /\ (liveCalls (events w) <= liveCalls (events w') <= S (liveCalls (events w)))%nat
  /\ cache w' = cache w.
Proof.
  intros w'. subst w'.
  split; [|split; [|split; [|split]]].
  - run_makeRequest; reflexivity.
  - run_makeRequest; reflexivity.
  - apply makeRequest_lookups.
  - apply makeRequest_calls_le.
  - apply makeRequest_cache.
Qed.

(** A [Do] event in the history after a call was there before, or is the
    request built from the call's endpoint and key. *)
Lemma makeRequest_requests endpoint apiKey limiter indexer target
    (w : World Cache) (req : Request) :
  EvDo req ∈ events (snd (makeRequest env endpoint apiKey limiter indexer target w)) ->
  EvDo req ∈ events w \/ req = sentRequest endpoint apiKey.
Proof.
  run_makeRequest; intros Hin;
    repeat (apply elem_of_cons in Hin as [Heq|Hin]; [try discriminate Heq|]);
    try (by left);
    right; by injection Heq as ->.
Qed.

(** X3. The only request [makeRequest] ever hands to the transport is a GET
    of its endpoint carrying the API key, as it is, in the Authorization
    header, under a ten-second timeout. *)
Theorem makeRequest_sends_only endpoint apiKey limiter indexer target
    (w : World Cache) (req : Request) :
  EvDo req ∈ events (snd (makeRequest env endpoint apiKey limiter indexer target w)) ->
  EvDo req ∈ events w
  \/ req = {| Method := "GET"; URL := endpoint;
              Header := [("Authorization", apiKey)];
              Timeout := Some 10000000000 |}.
Proof. apply makeRequest_requests. Qed.

(** X4. [makeRequest] returns no error exactly when the limiter admitted
    the call, the request could be built, the transport answered, the body
    was read and decoded, and the decoded status is "success". *)
Theorem makeRequest_success_iff endpoint apiKey limiter indexer responseData decoded
    (w : World Cache) :
  fst (makeRequest env endpoint apiKey limiter indexer (PtrResponseData responseData) w)
  = (PtrResponseData decoded, None)
  <-> exists resp,
        Answered env endpoint apiKey limiter w resp
        /\ bodyErr (RespBody resp) = None
        /\ Unmarshal env (bodyBytes (RespBody resp)) responseData = (decoded, None)
        /\ Status decoded = "success".
Proof.
  split.
  - unfold Answered.
    unfold makeRequest, limiter_Allow, http_Do, json_Unmarshal, io_ReadAll,
      http_NewRequest. simpl.
    destruct (Allow env limiter (events w)) eqn:Hallow; simpl; [|discriminate].
    destruct (NewRequestErr env endpoint) eqn:Hurl; simpl; [discriminate|].
    change (WithTimeout (10 * Second) (Header_Set "Authorization" apiKey _))
      with (sentRequest endpoint apiKey).
    destruct (Do env (sentRequest endpoint apiKey) (EvAllow limiter :: events w))
      as [resp|err] eqn:Hdo; simpl; [|discriminate].
    destruct (bodyErr (RespBody resp)) eqn:Hbody; simpl; [discriminate|].
    destruct (Unmarshal env (bodyBytes (RespBody resp)) responseData)
      as [decoded' [err|]] eqn:Hdec; simpl; [discriminate|].
    case_decide as Hst; simpl; [discriminate|].
    intros Heq. simplify_eq. exists resp.
    repeat split; try done; by apply dec_stable.
  - intros (resp & Hans & Hbody & Hdec & Hst).
    rewrite (makeRequest_answered env _ _ _ indexer responseData _ _ Hans).
    rewrite Hbody, Hdec. by case_decide.
Qed.

(** X5. Failures on the way to the decoder.  A request that cannot be built
    costs a token but no HTTP call, and its error comes back inside the
    "error making HTTP request" context; an error of the transport, or of
    reading the body, comes back as it is, not wrapped.  In all three cases
    the target is left as it was. *)
Theorem makeRequest_early_errors endpoint apiKey limiter indexer target
    (w : World Cache) :
  Allow env limiter (events w) = true ->
  let run := makeRequest env endpoint apiKey limiter indexer target w in
  (forall err, NewRequestErr env endpoint = Some err ->
     fst run = (target,
                Some (wrapError ("error making HTTP request to " +:+ endpoint +:+ ": ")
                                err))
     /\ liveCalls (events (snd run)) = liveCalls (events w)
     /\ allowQueries (events (snd run)) = S (allowQueries (events w)))
  /\ (forall err,
        NewRequestErr env endpoint = None ->
        Do env (sentRequest endpoint apiKey) (EvAllow limiter :: events w) = inr err ->
        fst run = (target, Some err)
        /\ liveCalls (events (snd run)) = S (liveCalls (events w)))
  /\ (forall resp err,
        NewRequestErr env endpoint = None ->
        Do env (sentRequest endpoint apiKey) (EvAllow limiter :: events w) = inl resp ->
        bodyErr (RespBody resp) = Some err ->
        fst run = (target, Some err)
        /\ liveCalls (events (snd run)) = S (liveCalls (events w))).
Proof.
  intros Hallow run. subst run.
  unfold makeRequest, limiter_Allow, http_Do, json_Unmarshal, io_ReadAll,
    http_NewRequest. simpl. rewrite Hallow. simpl.
  split; [|split].
  - intros err Hurl. rewrite Hurl. simpl. repeat split.
  - intros err Hurl Hdo. rewrite Hurl. simpl.
    change (WithTimeout (10 * Second) (Header_Set "Authorization" apiKey _))
      with (sentRequest endpoint apiKey).
    rewrite Hdo. simpl. split; reflexivity.
  - intros resp err Hurl Hdo Hbody. rewrite Hurl. simpl.
    change (WithTimeout (10 * Second) (Header_Set "Authorization" apiKey _))
      with (sentRequest endpoint apiKey).
    rewrite Hdo. simpl. rewrite Hbody. simpl. split; reflexivity.
Qed.

(** X6. A target that is not a [*ResponseData] never succeeds: the call
    always ends in an error, and when everything up to and including the
    decoding went well, that error is "invalid target type". *)
Theorem makeRequest_other_target endpoint apiKey limiter indexer (w : World Cache) :
  let run := makeRequest env endpoint apiKey limiter indexer PtrOther w in
  (exists err, fst run = (PtrOther, Some err))
  /\ (forall resp,
        Answered env endpoint apiKey limiter w resp ->
        bodyErr (RespBody resp) = None ->
        UnmarshalOther env (bodyBytes (RespBody resp)) = None ->
        fst run = (PtrOther, Some (errorString "invalid target type"))).
Proof.
  intros run. subst run. split.
  - apply makeRequest_target_other.
  - intros resp (Hallow & Hurl & Hdo) Hbody Hdec.
    unfold makeRequest, limiter_Allow, http_Do, json_Unmarshal, io_ReadAll,
      http_NewRequest. simpl. rewrite Hallow, Hurl. simpl.
    change (WithTimeout (10 * Second) (Header_Set "Authorization" apiKey _))
      with (sentRequest endpoint apiKey).
    rewrite Hdo. simpl. rewrite Hbody, Hdec. reflexivity.
Qed.

End ExecutorFootprint.

(** ** More on the orchestrator *)

Section OrchestratorOutcomes.

Context {Cache : Type}.
Variable env : Collaborators Cache.

(** X7. [initiateAPIRequest] returns exactly one of an envelope and an
    error: either a non-nil envelope of status "success" with a nil error,
    or a nil envelope with an error. *)
Theorem initiate_result_exclusive id action apiKey apiBase indexer (w : World Cache) :
  let run := initiateAPIRequest env id action apiKey apiBase indexer w in
  (exists responseData,
     fst run = (Some responseData, None) /\ Status responseData = "success")
  \/ (exists err, fst run = (None, Some err)).
Proof.
  intros run. subst run.
  destruct (initiate_cases env id action apiKey apiBase indexer w)
    as [(Hnil & Hres) | [(limiter & target & inner & w2 & Hlim & Hmk & Hres)
                        | (limiter & rd & w2 & Hlim & Hmk & Hst & Hres)]].
  - right. by eexists.
  - right. by eexists.
  - left. by exists rd.
Qed.

(** X8. A missing limiter is told apart from an exhausted one: the
    orchestrator's result is the "could not get rate limiter" error exactly
    when the registry has no limiter for the indexer, and then no token is
    asked for and no HTTP call is made. *)
Theorem initiate_limiter_unavailable id action apiKey apiBase indexer (w : World Cache) :
  let run := initiateAPIRequest env id action apiKey apiBase indexer w in
  (snd (fst run) = Some (LimiterUnavailable indexer)
   <-> getLimiter env indexer (events w) = None)
  /\ (getLimiter env indexer (events w) = None ->
      allowQueries (events (snd run)) = allowQueries (events w)
      /\ liveCalls (events (snd run)) = liveCalls (events w)).
Proof.
  intros run. subst run. split; [split|].
  - intros Herr.
    destruct (initiate_cases env id action apiKey apiBase indexer w)
      as [(Hnil & Hres) | [(limiter & target & inner & w2 & Hlim & Hmk & Hres)
                          | (limiter & rd & w2 & Hlim & Hmk & Hst & Hres)]];
      [exact Hnil | |]; rewrite Hres in Herr; simpl in Herr; discriminate.
  - intros Hnil. by rewrite (initiate_no_limiter env _ _ _ _ _ _ Hnil).
  - intros Hnil. by rewrite (initiate_no_limiter env _ _ _ _ _ _ Hnil).
Qed.

(** Every request [initiateAPIRequest] sends goes to the endpoint built from
    its base, action and id, with its API key. *)
Lemma initiate_sends_only id action apiKey apiBase indexer (w : World Cache) req :
  EvDo req ∈ events (snd (initiateAPIRequest env id action apiKey apiBase indexer w)) ->
  EvDo req ∈ events w
  \/ req = sentRequest (endpointFor apiBase action id) apiKey.
Proof.
  destruct (getLimiter env indexer (events w)) as [limiter|] eqn:Hlim.
  - destruct (initiate_events env id action apiKey apiBase indexer limiter w Hlim)
      as (logs & -> & Hlogs).
    intros Hin. apply elem_of_app in Hin as [Hin|Hin].
    + exfalso. clear -Hin Hlogs. induction logs as [|e logs IH].
      * by apply elem_of_nil in Hin.
      * rewrite liveCalls_cons in Hlogs.
        apply elem_of_cons in Hin as [<-|Hin]; [discriminate Hlogs|].
        destruct (isDo e); [discriminate Hlogs | by apply IH].
    + apply makeRequest_requests in Hin as [Hin| ->]; [|by right].
      apply elem_of_cons in Hin as [Heq|Hin]; [discriminate Heq | by left].
  - rewrite (initiate_no_limiter env _ _ _ _ _ _ Hlim). simpl. intros Hin.
    apply elem_of_cons in Hin as [Heq|Hin]; [discriminate Heq | by left].
Qed.

End OrchestratorOutcomes.

(** ** More on the cached fetch *)

Section FetchOutcomes.

Context {Cache : Type}.
Variable env : Collaborators Cache.

Local Abbreviation keyed requestData w :=
  (mkWorld (cache w) (EvGetAPIKey requestData :: events w)).

Lemma string_app_assoc (s1 s2 s3 : string) :
  (s1 +:+ s2) +:+ s3 = s1 +:+ (s2 +:+ s3).
Proof.
  induction s1 as [|c s1 IH]; [reflexivity|].
  rewrite !string_app_cons. by rewrite IH.
Qed.

(** One fetch changes the cache, if at all, by storing a success envelope
    under its key. *)
Lemma fetch_cache_step requestData id action apiBase (w : World Cache) :
  let w' := snd (fetchResponseData env requestData id action apiBase w) in
  cache w' = cache w
  \/ exists responseData,
       Status responseData = "success"
       /\ cache w' = cacheResponseData env (cacheKeyFor action id)
                       (Some responseData) (cache w).
Proof.
  intros w'. subst w'.
  fetch_cases env requestData id action apiBase w; simpl; [by left | by left | |];
    pose proof (initiate_cache env id action apiKey apiBase (Indexer requestData)
                  (keyed requestData w)) as Hc;
    rewrite Hinit in Hc; simpl in Hc.
  - by left.
  - right.
    destruct (initiate_cases env id action apiKey apiBase (Indexer requestData)
                (keyed requestData w))
      as [(Hnil & Hres) | [(limiter & target & inner & w3 & Hlim & Hmk & Hres)
                          | (limiter & rd & w3 & Hlim & Hmk & Hst & Hres)]];
      rewrite Hinit in Hres; simpl in Hres; simplify_eq.
    exists rd. split; [exact Hst | by rewrite Hc].
Qed.

(** One fetch makes at most one HTTP call and asks the credential provider
    at most once. *)
Lemma fetch_step_counts requestData id action apiBase (w : World Cache) :
  let w' := snd (fetchResponseData env requestData id action apiBase w) in
  (liveCalls (events w') <= S (liveCalls (events w)))%nat
  /\ (credentialLookups (events w') <= S (credentialLookups (events w)))%nat.
Proof.
  intros w'. subst w'.
  destruct (snd (checkCache env (cacheKeyFor action id) (Indexer requestData)
                   (cache w))) eqn:Hfound.
  - fetch_cases env requestData id action apiBase w; simpl in Hfound;
      try discriminate. simpl. lia.
  - rewrite (fetch_miss_lookups env _ _ _ _ _ Hfound). split; [|lia].
    fetch_cases env requestData id action apiBase w; simpl in Hfound;
      try discriminate; simpl.
    + rewrite liveCalls_cons. simpl. lia.
    + pose proof (initiate_calls_le env id action apiKey apiBase (Indexer requestData)
                    (keyed requestData w)) as Hle.
      rewrite Hinit in Hle. simpl in Hle. rewrite !liveCalls_cons in *. simpl in *. lia.
    + pose proof (initiate_calls_le env id action apiKey apiBase (Indexer requestData)
                    (keyed requestData w)) as Hle.
      rewrite Hinit in Hle. simpl in Hle. rewrite !liveCalls_cons in *. simpl in *. lia.
Qed.

(** X9. A credential failure is fail-fast: on a miss for which the provider
    has no key, the fetch returns the provider's error having done nothing
    else: no registry or limiter query, no HTTP call, no log line, no change
    to the cache. *)
Theorem fetch_credential_fail_fast requestData id action apiBase err (w : World Cache) :
  snd (checkCache env (cacheKeyFor action id) (Indexer requestData) (cache w)) = false ->
  snd (getAPIKey env requestData (events w)) = Some err ->
  let run := fetchResponseData env requestData id action apiBase w in
  fst run = (None, Some err)
  /\ events (snd run) = EvGetAPIKey requestData :: events w
  /\ cache (snd run) = cache w
  /\ limiterQueries (events (snd run)) = limiterQueries (events w)
  /\ liveCalls (events (snd run)) = liveCalls (events w).
Proof.
  intros Hmiss Hkey run. subst run.
  destruct (checkCache env (cacheKeyFor action id) (Indexer requestData) (cache w))
    as [cached found] eqn:Hcheck. simpl in Hmiss. subst found.
  destruct (getAPIKey env requestData (events w)) as [apiKey kerr] eqn:Hprov.
  simpl in Hkey. subst kerr.
  rewrite (fetch_no_key env _ _ _ apiBase _ _ _ _ Hcheck Hprov).
  repeat split.
Qed.

(** X10. The only request a fetch sends goes to the endpoint made of its
    base, action and id, and carries the key the credential provider gave
    for this very request. *)
Theorem fetch_sends_only requestData id action apiBase (w : World Cache) req :
  EvDo req ∈ events (snd (fetchResponseData env requestData id action apiBase w)) ->
  EvDo req ∈ events w
  \/ exists apiKey,
       getAPIKey env requestData (events w) = (apiKey, None)
       /\ req = {| Method := "GET";
                   URL := apiBase +:+ "?action=" +:+ action +:+ "&id=" +:+ pretty id;
                   Header := [("Authorization", apiKey)];
                   Timeout := Some 10000000000 |}.
Proof.
  fetch_cases env requestData id action apiBase w; simpl; intros Hin.
  - by left.
  - apply elem_of_cons in Hin as [Heq|Hin]; [discriminate Heq | by left].
  - apply elem_of_cons in Hin as [Heq|Hin]; [discriminate Heq|].
    pose proof (initiate_sends_only env id action apiKey apiBase (Indexer requestData)
                  (keyed requestData w) req) as Hsent.
    rewrite Hinit in Hsent. destruct (Hsent Hin) as [Hold| ->].
    + apply elem_of_cons in Hold as [Heq|Hold]; [discriminate Heq | by left].
    + right. by exists apiKey.
  - pose proof (initiate_sends_only env id action apiKey apiBase (Indexer requestData)
                  (keyed requestData w) req) as Hsent.
    rewrite Hinit in Hsent. destruct (Hsent Hin) as [Hold| ->].
    + apply elem_of_cons in Hold as [Heq|Hold]; [discriminate Heq | by left].
    + right. by exists apiKey.
Qed.

End FetchOutcomes.

Section FetchEndToEnd.

Context {Cache : Type}.
Variable env : Collaborators Cache.

(** The world in which [makeRequest] starts during a fetch that missed the
    cache: the provider and the registry have been asked. *)
Local Abbreviation primed requestData w :=
  (mkWorld (cache w)
     (EvGetLimiter (Indexer requestData) :: EvGetAPIKey requestData :: events w)).

(** A fetch that missed the cache, resolved a key and found a limiter is
    decided by its [makeRequest] call. *)
Lemma fetch_executor_failed requestData id action apiBase apiKey limiter target inner
    (w w2 : World Cache) :
  snd (checkCache env (cacheKeyFor action id) (Indexer requestData) (cache w)) = false ->
  getAPIKey env requestData (events w) = (apiKey, None) ->
  getLimiter env (Indexer requestData) (EvGetAPIKey requestData :: events w)
  = Some limiter ->
  makeRequest env (endpointFor apiBase action id) apiKey limiter (Indexer requestData)
    (PtrResponseData zeroResponseData) (primed requestData w)
  = ((target, Some inner), w2) ->
  let run := fetchResponseData env requestData id action apiBase w in
  fst run
  = (None,
     Some (FetchFailed action id (InitiationFailed (endpointFor apiBase action id) inner)))
  /\ cache (snd run) = cache w
  /\ liveCalls (events (snd run)) = liveCalls (events w2).
Proof.
  intros Hmiss Hkey Hlim Hmk run. subst run.
  destruct (checkCache env (cacheKeyFor action id) (Indexer requestData) (cache w))
    as [cached found] eqn:Hcheck. simpl in Hmiss. subst found.
  pose proof (initiate_failed env id action apiKey apiBase (Indexer requestData)
                limiter target inner
                (mkWorld (cache w) (EvGetAPIKey requestData :: events w)) w2
                Hlim Hmk) as Hinit.
  rewrite (fetch_failed env _ _ _ _ _ _ _ _ _ _ Hcheck Hkey Hinit). simpl.
  pose proof (makeRequest_cache env (endpointFor apiBase action id) apiKey limiter
                (Indexer requestData) (PtrResponseData zeroResponseData)
                (primed requestData w)) as Hc.
  rewrite Hmk in Hc. repeat split. exact Hc.
Qed.

(** X11. What the caller reads when the API reports a failure: the fetch
    returns no envelope and an error whose text names the action, the id,
    the endpoint, the indexer and the API's own message, in that order; two
    [Unwrap]s lead to the API error itself; and nothing is cached. *)
Theorem fetch_api_error_text requestData id action apiBase apiKey limiter resp decoded
    (w : World Cache) :
  snd (checkCache env (cacheKeyFor action id) (Indexer requestData) (cache w)) = false ->
  getAPIKey env requestData (events w) = (apiKey, None) ->
  getLimiter env (Indexer requestData) (EvGetAPIKey requestData :: events w)
  = Some limiter ->
  Answered env (endpointFor apiBase action id) apiKey limiter (primed requestData w) resp ->
  bodyErr (RespBody resp) = None ->
  Unmarshal env (bodyBytes (RespBody resp)) zeroResponseData = (decoded, None) ->
  Status decoded <> "success" ->
  exists err,
    fst (fetchResponseData env requestData id action apiBase w) = (None, Some err)
    /\ error_Error err
       = "error fetching " +:+ action +:+ " data for ID " +:+ pretty id +:+ ": " +:+
         "initiateAPIRequest failed for endpoint " +:+
         apiBase +:+ "?action=" +:+ action +:+ "&id=" +:+ pretty id +:+ ": " +:+
         "API error from " +:+ Indexer requestData +:+ ": " +:+ Error decoded
    /\ Unwrap err ≫= Unwrap = Some (APIError (Indexer requestData) (Error decoded))
    /\ cache (snd (fetchResponseData env requestData id action apiBase w)) = cache w.
Proof.
  intros Hmiss Hkey Hlim Hans Hbody Hdec Hst.
  pose proof (makeRequest_answered env _ _ _ (Indexer requestData) zeroResponseData
                _ _ Hans) as Hmk.
  rewrite Hbody, Hdec in Hmk. rewrite decide_False in Hmk by exact Hst.
  destruct (fetch_executor_failed requestData id action apiBase apiKey limiter _ _
              w _ Hmiss Hkey Hlim Hmk) as (Hres & Hcache & _).
  eexists. split; [exact Hres|]. split; [|split; [reflexivity | exact Hcache]].
  unfold FetchFailed, InitiationFailed, endpointFor. simpl.
  by rewrite !string_app_assoc.
Qed.

(** X12. Rate limiting seen from the fetch: when the limiter denies the
    token, the fetch fails with the "too many requests" error inside the
    endpoint and id/action contexts, makes no HTTP call and caches
    nothing. *)
Theorem fetch_rate_limited requestData id action apiBase apiKey limiter
    (w : World Cache) :
  snd (checkCache env (cacheKeyFor action id) (Indexer requestData) (cache w)) = false ->
  getAPIKey env requestData (events w) = (apiKey, None) ->
  getLimiter env (Indexer requestData) (EvGetAPIKey requestData :: events w)
  = Some limiter ->
  Allow env limiter
    (EvGetLimiter (Indexer requestData) :: EvGetAPIKey requestData :: events w) = false ->
  let run := fetchResponseData env requestData id action apiBase w in
  fst run
  = (None,
     Some (FetchFailed action id
             (InitiationFailed (endpointFor apiBase action id) RateLimited)))
  /\ liveCalls (events (snd run)) = liveCalls (events w)
  /\ cache (snd run) = cache w.
Proof.
  intros Hmiss Hkey Hlim Hdenied run. subst run.
  assert (makeRequest env (endpointFor apiBase action id) apiKey limiter
            (Indexer requestData) (PtrResponseData zeroResponseData)
            (primed requestData w)
          = ((PtrResponseData zeroResponseData, Some RateLimited),
             mkWorld (cache w)
               (EvLog WarnLevel None (Indexer requestData +:+ ": Too many requests")
                :: EvAllow limiter :: events (primed requestData w)))) as Hmk.
  { unfold makeRequest, limiter_Allow. simpl. rewrite Hdenied. reflexivity. }
  destruct (fetch_executor_failed requestData id action apiBase apiKey limiter _ _
              w _ Hmiss Hkey Hlim Hmk) as (Hres & Hcache & Hcalls).
  split; [exact Hres|]. split; [|exact Hcache].
  rewrite Hcalls. reflexivity.
Qed.

(** X15. The live path from end to end: a fetch that misses the cache,
    resolves a key, finds a limiter that admits it and receives a body that
    decodes to a success envelope returns that envelope, stores it under the
    key of the call and has made exactly one HTTP call. *)
Theorem fetch_live_success requestData id action apiBase apiKey limiter resp decoded
    (w : World Cache) :
  snd (checkCache env (cacheKeyFor action id) (Indexer requestData) (cache w)) = false ->
  getAPIKey env requestData (events w) = (apiKey, None) ->
  getLimiter env (Indexer requestData) (EvGetAPIKey requestData :: events w)
  = Some limiter ->
  Answered env (endpointFor apiBase action id) apiKey limiter (primed requestData w) resp ->
  bodyErr (RespBody resp) = None ->
  Unmarshal env (bodyBytes (RespBody resp)) zeroResponseData = (decoded, None) ->
  Status decoded = "success" ->
  let run := fetchResponseData env requestData id action apiBase w in
  fst run = (Some decoded, None)
  /\ cache (snd run)
     = cacheResponseData env (cacheKeyFor action id) (Some decoded) (cache w)
  /\ liveCalls (events (snd run)) = S (liveCalls (events w)).
Proof.
  intros Hmiss Hkey Hlim Hans Hbody Hdec Hst run. subst run.
  destruct (checkCache env (cacheKeyFor action id) (Indexer requestData) (cache w))
    as [cached found] eqn:Hcheck. simpl in Hmiss. subst found.
  pose proof (makeRequest_answered env _ _ _ (Indexer requestData) zeroResponseData
                _ _ Hans) as Hmk.
  rewrite Hbody, Hdec in Hmk. rewrite decide_True in Hmk by exact Hst.
  pose proof (initiate_succeeded env id action apiKey apiBase (Indexer requestData)
                limiter decoded
                (mkWorld (cache w) (EvGetAPIKey requestData :: events w)) _
                Hlim Hmk) as Hinit.
  rewrite (fetch_succeeded env _ _ _ _ _ _ _ _ _ Hcheck Hkey Hinit).
  simpl. repeat split; repeat case_match; reflexivity.
Qed.

(** X13. Served from a cache whose hits are all success envelopes, a fetch
    returns exactly one of an envelope and an error: a non-nil envelope of
    status "success" with a nil error, or a nil envelope with an error. *)
Theorem fetch_result_exclusive requestData id action apiBase (w : World Cache) :
  ServesSuccess env (cache w) ->
  let run := fetchResponseData env requestData id action apiBase w in
  (exists responseData,
     fst run = (Some responseData, None) /\ Status responseData = "success")
  \/ (exists err, fst run = (None, Some err)).
Proof.
  intros Hserves run. subst run.
  fetch_cases env requestData id action apiBase w; simpl.
  - left. destruct (Hserves _ _ _ Hcheck) as (rd & -> & Hst). by exists rd.
  - right. by eexists.
  - right. by eexists.
  - left.
    destruct (initiate_cases env id action apiKey apiBase (Indexer requestData)
                (mkWorld (cache w) (EvGetAPIKey requestData :: events w)))
      as [(Hnil & Hres) | [(limiter & target & inner & w3 & Hlim & Hmk & Hres)
                          | (limiter & rd & w3 & Hlim & Hmk & Hst & Hres)]];
      rewrite Hinit in Hres; simpl in Hres; simplify_eq.
    by exists rd.
Qed.

(** X14. Over any number of fetches, with whatever arguments: a property of
    the cache that survives the storing of a success envelope survives them
    all, and [n] fetches make at most [n] HTTP calls and [n] credential
    lookups. *)
Theorem fetches_invariant (n : nat) (w w' : World Cache) (Inv : Cache -> Prop) :
  fetches env n w w' ->
  (forall cacheKey responseData c,
     Status responseData = "success" -> Inv c ->
     Inv (cacheResponseData env cacheKey (Some responseData) c)) ->
  Inv (cache w) ->
  Inv (cache w')
  /\ (liveCalls (events w') <= liveCalls (events w) + n)%nat
  /\ (credentialLookups (events w') <= credentialLookups (events w) + n)%nat.
Proof.
  intros Hrun Hstore Hinv.
  induction Hrun as [w | n w w1 requestData id action apiBase Hrun IH].
  - repeat split; [exact Hinv | lia | lia].
  - destruct (IH Hinv) as (Hinv1 & Hcalls & Hlookups).
    destruct (fetch_step_counts env requestData id action apiBase w1) as [Hc Hl].
    split; [|split; lia].
    destruct (fetch_cache_step env requestData id action apiBase w1)
      as [-> | (rd & Hst & ->)]; [exact Hinv1 | by apply Hstore].
Qed.

End FetchEndToEnd.

(** ** Concrete runs of the further properties *)

Lemma scripted_empty_serves_success allow transport :
  ServesSuccess (Scripted.collaborators allow transport) (∅ : Scripted.Store).
Proof.
  intros cacheKey indexer cached Hhit.
  change (Scripted.lookupStore cacheKey indexer ∅ = (cached, true)) in Hhit.
  unfold Scripted.lookupStore, Scripted.Store in Hhit.
  rewrite lookup_empty in Hhit. discriminate Hhit.
Qed.

Lemma scripted_insert_serves_success allow transport cacheKey responseData
    (c : Scripted.Store) :
  Status responseData = "success" ->
  ServesSuccess (Scripted.collaborators allow transport) c ->
  ServesSuccess (Scripted.collaborators allow transport)
    (cacheResponseData (Scripted.collaborators allow transport) cacheKey
       (Some responseData) c).
Proof.
  intros Hst Hserves cacheKey' indexer cached Hhit.
  change (Scripted.lookupStore cacheKey' indexer
            (Scripted.insertStore cacheKey (Some responseData) c) = (cached, true))
    in Hhit.
  unfold Scripted.lookupStore, Scripted.insertStore, Scripted.Store in Hhit.
  destruct (decide (cacheKey = cacheKey')) as [->|Hne].
  - rewrite lookup_insert_eq in Hhit. simplify_eq. by exists responseData.
  - rewrite lookup_insert_ne in Hhit by exact Hne.
    by apply (Hserves cacheKey' indexer cached).
Qed.

Lemma makeRequest_sends_only_witness :
  EvDo (sentRequest Scripted.endpoint42 "red-key") ∈ events Scripted.asked
  \/ sentRequest Scripted.endpoint42 "red-key"
     = {| Method := "GET";
          URL := "https://redacted.ch/ajax.php?action=torrent&id=42";
          Header := [("Authorization", "red-key")];
          Timeout := Some 10000000000 |}.
Proof.
  apply (makeRequest_sends_only Scripted.happy Scripted.endpoint42 "red-key"
           (LimiterAt 1) "redacted" (PtrResponseData zeroResponseData)
           Scripted.asked).
  vm_compute. apply list_elem_of_here.
Defined.

Lemma makeRequest_success_iff_witness :
  fst (makeRequest Scripted.happy Scripted.endpoint42 "red-key" (LimiterAt 1)
         "redacted" (PtrResponseData zeroResponseData) Scripted.asked)
  = (PtrResponseData Scripted.fooBar, None).
Proof.
  apply (makeRequest_success_iff Scripted.happy Scripted.endpoint42 "red-key"
           (LimiterAt 1) "redacted" zeroResponseData Scripted.fooBar Scripted.asked).
  exists {| StatusCode := 200;
            RespBody := {| bodyBytes := "success body"; bodyErr := None |} |}.
  repeat split.
Defined.

Lemma makeRequest_early_errors_witness :
  fst (makeRequest Scenarios.unbuildable Scripted.endpoint42 "red-key" (LimiterAt 1)
         "redacted" (PtrResponseData zeroResponseData) Scripted.asked)
  = (PtrResponseData zeroResponseData,
     Some (wrapError
             "error making HTTP request to https://redacted.ch/ajax.php?action=torrent&id=42: "
             (errorString "net/url: invalid control character in URL")))
  /\ fst (makeRequest Scenarios.offline Scripted.endpoint42 "red-key" (LimiterAt 1)
            "redacted" (PtrResponseData zeroResponseData) Scripted.asked)
     = (PtrResponseData zeroResponseData,
        Some (errorString "dial tcp: connection refused"))
  /\ fst (makeRequest Scenarios.truncated Scripted.endpoint42 "red-key" (LimiterAt 1)
            "redacted" (PtrResponseData zeroResponseData) Scripted.asked)
     = (PtrResponseData zeroResponseData, Some (errorString "unexpected EOF")).
Proof.
  split; [|split].
  - destruct (makeRequest_early_errors Scenarios.unbuildable Scripted.endpoint42
                "red-key" (LimiterAt 1) "redacted" (PtrResponseData zeroResponseData)
                Scripted.asked eq_refl) as (Hbuild & _ & _).
    apply (Hbuild (errorString "net/url: invalid control character in URL")).
    reflexivity.
  - destruct (makeRequest_early_errors Scenarios.offline Scripted.endpoint42
                "red-key" (LimiterAt 1) "redacted" (PtrResponseData zeroResponseData)
                Scripted.asked eq_refl) as (_ & Hdo & _).
    apply (Hdo (errorString "dial tcp: connection refused")); reflexivity.
  - destruct (makeRequest_early_errors Scenarios.truncated Scripted.endpoint42
                "red-key" (LimiterAt 1) "redacted" (PtrResponseData zeroResponseData)
                Scripted.asked eq_refl) as (_ & _ & Hread).
    apply (Hread {| StatusCode := 200;
                    RespBody := {| bodyBytes := "success";
                                   bodyErr := Some (errorString "unexpected EOF") |} |}
                 (errorString "unexpected EOF")); reflexivity.
Defined.

Lemma makeRequest_other_target_witness :
  fst (makeRequest Scripted.happy Scripted.endpoint42 "red-key" (LimiterAt 1)
         "redacted" PtrOther Scripted.asked)
  = (PtrOther, Some (errorString "invalid target type")).
Proof.
  destruct (makeRequest_other_target Scripted.happy Scripted.endpoint42 "red-key"
              (LimiterAt 1) "redacted" Scripted.asked) as (_ & Htype).
  apply (Htype {| StatusCode := 200;
                  RespBody := {| bodyBytes := "success body"; bodyErr := None |} |}).
  - repeat split.
  - reflexivity.
  - reflexivity.
Defined.

Lemma initiate_limiter_unavailable_witness :
  snd (fst (initiateAPIRequest Scripted.happy 42 "torrent" "btn-key" Scripted.base
              "btn" Scripted.start))
  = Some (errorString "could not get rate limiter for indexer: btn")
  /\ liveCalls (events (snd (initiateAPIRequest Scripted.happy 42 "torrent" "btn-key"
                               Scripted.base "btn" Scripted.start))) = 0%nat.
Proof.
  destruct (initiate_limiter_unavailable Scripted.happy 42 "torrent" "btn-key"
              Scripted.base "btn" Scripted.start) as (Hiff & Hquiet).
  split.
  - apply Hiff. reflexivity.
  - apply Hquiet. reflexivity.
Defined.

Lemma fetch_credential_fail_fast_witness :
  fst (fetchResponseData Scripted.happy Scripted.keyless 42 "torrent" Scripted.base
         Scripted.start)
  = (None, Some (errorString "no API key configured")).
Proof.
  apply (fetch_credential_fail_fast Scripted.happy Scripted.keyless 42 "torrent"
           Scripted.base (errorString "no API key configured") Scripted.start);
    reflexivity.
Defined.

Lemma fetch_sends_only_witness :
  EvDo (sentRequest Scripted.endpoint42 "red-key") ∈ events Scripted.start
  \/ exists apiKey,
       getAPIKey Scripted.happy Scripted.red (events Scripted.start) = (apiKey, None)
       /\ sentRequest Scripted.endpoint42 "red-key"
          = {| Method := "GET";
               URL := Scripted.base +:+ "?action=" +:+ "torrent" +:+ "&id=" +:+ pretty 42;
               Header := [("Authorization", apiKey)];
               Timeout := Some 10000000000 |}.
Proof.
  apply (fetch_sends_only Scripted.happy Scripted.red 42 "torrent" Scripted.base
           Scripted.start).
  vm_compute. apply list_elem_of_further, list_elem_of_here.
Defined.

Lemma fetch_api_error_text_witness :
  exists err,
    fst (fetchResponseData Scripted.refusing Scripted.red 42 "torrent" Scripted.base
           Scripted.start) = (None, Some err)
    /\ error_Error err
       = "error fetching torrent data for ID 42: initiateAPIRequest failed for endpoint https://redacted.ch/ajax.php?action=torrent&id=42: API error from redacted: bad id parameter".
Proof.
  destruct (fetch_api_error_text Scripted.refusing Scripted.red 42 "torrent"
              Scripted.base "red-key" (LimiterAt 1)
              {| StatusCode := 200;
                 RespBody := {| bodyBytes := "failure body"; bodyErr := None |} |}
              Scripted.failure Scripted.start)
    as (err & Hres & Htext & _).
  - reflexivity.
  - reflexivity.
  - reflexivity.
  - repeat split.
  - reflexivity.
  - reflexivity.
  - discriminate.
  - exists err. split; [exact Hres|]. rewrite Htext. vm_compute. reflexivity.
Defined.

Lemma fetch_rate_limited_witness :
  fst (fetchResponseData Scripted.throttled Scripted.red 42 "torrent" Scripted.base
         Scripted.start)
  = (None,
     Some (FetchFailed "torrent" 42
             (InitiationFailed Scripted.endpoint42 RateLimited)))
  /\ liveCalls (events (snd (fetchResponseData Scripted.throttled Scripted.red 42
                               "torrent" Scripted.base Scripted.start))) = 0%nat.
Proof.
  destruct (fetch_rate_limited Scripted.throttled Scripted.red 42 "torrent"
              Scripted.base "red-key" (LimiterAt 1) Scripted.start)
    as (Hres & Hcalls & _); try reflexivity.
  split; [exact Hres | exact Hcalls].
Defined.

Lemma fetch_result_exclusive_witness :
  (exists responseData,
     fst (fetchResponseData Scripted.happy Scripted.red 42 "torrent" Scripted.base
            Scripted.start) = (Some responseData, None)
     /\ Status responseData = "success")
  \/ (exists err,
        fst (fetchResponseData Scripted.happy Scripted.red 42 "torrent" Scripted.base
               Scripted.start) = (None, Some err)).
Proof.
  apply (fetch_result_exclusive Scripted.happy Scripted.red 42 "torrent"
           Scripted.base Scripted.start).
  apply scripted_empty_serves_success.
Defined.

Lemma fetches_invariant_witness :
  ServesSuccess Scripted.happy
    (cache (snd (fetchResponseData Scripted.happy Scripted.ops 42 "torrent"
                   Scripted.base Scripted.afterRed)))
  /\ (liveCalls (events (snd (fetchResponseData Scripted.happy Scripted.ops 42
                                "torrent" Scripted.base Scripted.afterRed)))
      <= liveCalls (events Scripted.start) + 2)%nat
  /\ (credentialLookups
        (events (snd (fetchResponseData Scripted.happy Scripted.ops 42
                        "torrent" Scripted.base Scripted.afterRed)))
      <= credentialLookups (events Scripted.start) + 2)%nat.
Proof.
  apply (fetches_invariant Scripted.happy 2 Scripted.start _
           (ServesSuccess Scripted.happy)).
  - apply (fetches_more Scripted.happy 1 Scripted.start Scripted.afterRed
             Scripted.ops 42 "torrent" Scripted.base).
    apply (fetches_more Scripted.happy 0 Scripted.start Scripted.start
             Scripted.red 42 "torrent" Scripted.base).
    apply fetches_none.
  - intros cacheKey responseData c. apply scripted_insert_serves_success.
  - apply scripted_empty_serves_success.
Defined.

Lemma fetch_live_success_witness :
  fst (fetchResponseData Scripted.happy Scripted.red 42 "torrent" Scripted.base
         Scripted.start) = (Some Scripted.fooBar, None)
  /\ liveCalls (events (snd (fetchResponseData Scripted.happy Scripted.red 42
                               "torrent" Scripted.base Scripted.start))) = 1%nat.
Proof.
  destruct (fetch_live_success Scripted.happy Scripted.red 42 "torrent"
              Scripted.base "red-key" (LimiterAt 1)
              {| StatusCode := 200;
                 RespBody := {| bodyBytes := "success body"; bodyErr := None |} |}
              Scripted.fooBar Scripted.start)
    as (Hres & _ & Hcalls); try reflexivity.
  - repeat split.
  - split; [exact Hres | exact Hcalls].
Defined.


